(** * ai_travel_agent: the itinerary-to-calendar converter

    A shallow embedding of [generate_ics_content] from [travel_agent.py]
    and of the parts of the Python runtime it calls: [str] as a sequence of
    code points, the backtracking matcher of [re] on the operators the day
    pattern uses, [int], [str.strip], [datetime] arithmetic on proleptic
    Gregorian ordinals, and the [icalendar] objects the function fills in.
    The wall clock is explicit: a run reads it through a counter, so that
    what depends on the time of the run can be told from what does not. *)

From Stdlib Require Import ZArith NArith Bool String Ascii Lia List Sorted.
From Stdlib Require DecimalPos.
Import ListNotations.

Set Implicit Arguments.

(** ** Python [str]: a sequence of Unicode code points *)

Definition char : Type := N.
Definition str : Type := list char.

(** ASCII literals of the source, as code points. *)
Definition u (s : string) : str := map N_of_ascii (list_ascii_of_string s).

(** The newline character, [\n]. *)
Definition LF : char := 10%N.

(** The part of the Unicode character database the program consults:
    decimal digits (category Nd, with their digit value) and white space
    (what [Py_UNICODE_ISSPACE] accepts). *)
Inductive uclass : Type :=
| Decimal (value : Z)
| Space
| Other.

(** The ASCII range is fixed by the interpreter: [0-9] are the decimals and
    [\t \n \v \f \r \x1c \x1d \x1e \x1f] and the blank are the white space. *)
Definition ascii_class (c : char) : uclass :=
  if ((48 <=? c) && (c <=? 57))%N then Decimal (Z.of_N (c - 48))
  else if ((9 <=? c) && (c <=? 13) || (28 <=? c) && (c <=? 32))%N then Space
  else Other.

(** ** Regular expressions, as [sre_parse] represents them

    Only the operators of [day_pattern] are modelled; repetition is over
    single-character items, which is all the pattern uses. *)

Inductive category : Type := CATEGORY_DIGIT | CATEGORY_SPACE.

Inductive setitem : Type :=
| LITERAL (c : char)
| CATEGORY (cat : category).

Inductive atom : Type :=
| Lit (c : char)               (* a literal character *)
| ANY_ALL                      (* [.] under re.DOTALL *)
| IN (items : list setitem).   (* a character set or a lone category *)

Inductive regex : Type :=
| Empty
| Atom (a : atom)
| Seq (r1 r2 : regex)
| BRANCH (r1 r2 : regex)               (* r1|r2 *)
| MAX_REPEAT (min : nat) (a : atom)    (* a{min,}  greedy *)
| MIN_REPEAT (min : nat) (a : atom)    (* a{min,}? lazy *)
| SUBPATTERN (group : nat) (r : regex) (* ( r ) *)
| ASSERT (r : regex)                   (* (?= r ) *)
| AT_END.                              (* $ without re.MULTILINE *)

Declare Scope regex_scope.
Delimit Scope regex_scope with re.
Bind Scope regex_scope with regex.
Infix "\;" := Seq (at level 61, right associativity) : regex_scope.

Fixpoint literal (s : str) : regex :=
  match s with
  | [] => Empty
  | c :: s' => Seq (Atom (Lit c)) (literal s')
  end.

(** Captured groups, most recently closed first. *)
Definition groups : Type := list (nat * str).

Fixpoint group (i : nat) (g : groups) : option str :=
  match g with
  | [] => None
  | (j, v) :: g' => if Nat.eqb i j then Some v else group i g'
  end.

(** [$] matches at the end of the string and just before a newline that
    is the last character of the string. *)
Definition at_end (s : str) : bool :=
  match s with
  | [] => true
  | [c] => N.eqb c LF
  | _ => false
  end.

(** ** [datetime] *)

Module Datetime.

(** Proleptic Gregorian ordinals: day 1 is 0001-01-01. *)
Definition MINORDINAL : Z := 1.
Definition MAXORDINAL : Z := 3652059.   (* 9999-12-31 *)

(** A [date] is identified with its ordinal, the number [date.toordinal]
    returns; [datetime] arithmetic is defined on it. *)
Record date : Type := mkdate { toordinal : Z }.

Record time : Type :=
  mktime { hour : Z; minute : Z; second : Z; microsecond : Z }.

Record datetime : Type := mkdatetime { date_of : date; time_of : time }.

Record timedelta : Type := mktimedelta { days : Z }.

Definition is_leap (y : Z) : bool :=
  ((y mod 4 =? 0) && (negb (y mod 100 =? 0) || (y mod 400 =? 0)))%Z.

Definition days_before_year (y : Z) : Z :=
  (let y1 := y - 1 in y1 * 365 + y1 / 4 - y1 / 100 + y1 / 400)%Z.

Definition days_in_month (y m : Z) : Z :=
  (if m =? 2 then (if is_leap y then 29 else 28)
   else if (m =? 4) || (m =? 6) || (m =? 9) || (m =? 11) then 30
   else 31)%Z.

Fixpoint days_before_month_aux (y : Z) (m : nat) : Z :=
  match m with
  | O => 0
  | S k => (days_before_month_aux y k + days_in_month y (Z.of_nat (S k)))%Z
  end.

(** Days of year [y] before the first of month [m]. *)
Definition days_before_month (y m : Z) : Z :=
  days_before_month_aux y (Z.to_nat (m - 1)).

(** [date(y, m, d).toordinal()]. *)
Definition ymd2ord (y m d : Z) : Z :=
  (days_before_year y + days_before_month y m + d)%Z.

Definition ymd (y m d : Z) : date := mkdate (ymd2ord y m d).

Definition date_valid (d : date) : Prop :=
  (MINORDINAL <= toordinal d <= MAXORDINAL)%Z.


End Datetime.
Export Datetime.

(** ** Exceptions and the ambient clock *)

(** The exceptions the modelled calls can raise.  [ValueError] comes from
    [int]: for a text that is no number, and for a decimal literal longer
    than the interpreter's limit, with a message that quotes the number of
    digits.  [OverflowError] comes from [datetime] in two places: the
    [timedelta] constructor, whose message quotes the number of days it was
    given, and date arithmetic, whose message is the fixed text "date value
    out of range". *)
Inductive exn : Type :=
| ValueError_invalid_literal              (* int(): not a number *)
| ValueError_too_many_digits (digits : nat) (* int(): over the digit limit *)
| OverflowError_timedelta (days : Z)      (* |days| > 999999999 *)
| OverflowError_date.                     (* result outside date.min..date.max *)

Inductive result (A : Type) : Type :=
| Ok (a : A)
| Raise (e : exn).
Arguments Ok {A} a.
Arguments Raise {A} e.

(** The wall clock: the [n]-th reading taken during a run. *)
Definition clock : Type := nat -> datetime.

(** Computations that read the clock and may raise: the state is the
    number of readings taken so far. *)
Definition M (A : Type) : Type := clock -> nat -> result (A * nat).

Definition ret {A} (a : A) : M A := fun _ n => Ok (a, n).

Definition bind {A B} (m : M A) (f : A -> M B) : M B :=
  fun clk n =>
    match m clk n with
    | Ok (a, n') => f a clk n'
    | Raise e => Raise e
    end.

Definition raise {A} (e : exn) : M A := fun _ _ => Raise e.

Definition lift {A} (r : result A) : M A :=
  fun _ n => match r with Ok a => Ok (a, n) | Raise e => Raise e end.

(** [datetime.now()] and [datetime.today()] both read the local clock. *)
Definition now : M datetime := fun clk n => Ok (clk n, S n).
Definition today : M datetime := now.

Declare Scope monad_scope.
Delimit Scope monad_scope with M.
Notation "x <- m ;; k" := (bind m (fun x => k))
  (at level 100, m at next level, right associativity) : monad_scope.

(** A [for] loop over a list, threading the accumulator. *)
Fixpoint for_each {A B} (f : B -> A -> M B) (acc : B) (l : list A) : M B :=
  match l with
  | [] => ret acc
  | x :: l' => bind (f acc x) (fun acc' => for_each f acc' l')
  end.

(** [timedelta(days=n)]. *)
Definition timedelta_days (n : Z) : result timedelta :=
  if (Z.abs n <=? 999999999)%Z then Ok (mktimedelta n)
  else Raise (OverflowError_timedelta n).

(** [dt + delta] for a [delta] of whole days: the time of day is kept and
    the date moves by [delta.days]; leaving [date.min..date.max] raises. *)
Definition datetime_add (dt : datetime) (delta : timedelta) : result datetime :=
  let o := (toordinal (date_of dt) + days delta)%Z in
  if ((MINORDINAL <=? o) && (o <=? MAXORDINAL))%Z
  then Ok (mkdatetime (mkdate o) (time_of dt))
  else Raise OverflowError_date.

(** ** [icalendar] components *)

Record Event : Type := mkEvent {
  summary : str;
  description : str;
  dtstart : date;
  dtend : date;
  dtstamp : datetime
}.

Record Calendar : Type := mkCalendar {
  prodid : str;
  version : str;
  subcomponents : list Event
}.

Definition add_component (cal : Calendar) (e : Event) : Calendar :=
  mkCalendar (prodid cal) (version cal) (subcomponents cal ++ [e]).

(** ** Decimal rendering of an [int], as an f-string does it *)

Fixpoint uint_chars (d : Decimal.uint) : str :=
  match d with
  | Decimal.Nil => []
  | Decimal.D0 d' => 48%N :: uint_chars d'
  | Decimal.D1 d' => 49%N :: uint_chars d'
  | Decimal.D2 d' => 50%N :: uint_chars d'
  | Decimal.D3 d' => 51%N :: uint_chars d'
  | Decimal.D4 d' => 52%N :: uint_chars d'
  | Decimal.D5 d' => 53%N :: uint_chars d'
  | Decimal.D6 d' => 54%N :: uint_chars d'
  | Decimal.D7 d' => 55%N :: uint_chars d'
  | Decimal.D8 d' => 56%N :: uint_chars d'
  | Decimal.D9 d' => 57%N :: uint_chars d'
  end.

Definition str_of_int (z : Z) : str :=
  match Z.to_int z with
  | Decimal.Pos d => uint_chars d
  | Decimal.Neg d => 45%N :: uint_chars d
  end.

(** ** Sample data for the examples *)

(** A character database with no digit and no white space beyond ASCII. *)
Definition ascii_only : char -> uclass := fun _ => Other.

Definition midnight : time := mktime 0 0 0 0.

(** A clock that starts on 2025-06-15 at 09:30 and moves by a microsecond
    per reading. *)
Definition sample_clock : clock :=
  fun n => mkdatetime (ymd 2025 6 15) (mktime 9 30 0 (Z.of_nat n)).

Definition new_year_2024 : datetime := mkdatetime (ymd 2024 1 1) midnight.


(** A stand-in for the serializer in the examples: the low byte of every
    code point of every description. *)
Definition sample_to_ical (cal : Calendar) : list Byte.byte :=
  flat_map
    (fun e =>
       map (fun c => match Byte.of_N (c mod 256) with
                     | Some b => b
                     | None => Byte.x00
                     end)
           (description e))
    (subcomponents cal).



Ltac valid_date := unfold date_valid; vm_compute; split; discriminate.

Section TravelAgent.

(** The character database outside ASCII is the interpreter's: it is a
    parameter, giving each code point from 128 up one class. *)
Variable ucd : char -> uclass.

(** The interpreter's limit on the length of a decimal literal given to
    [int], [sys.get_int_max_str_digits()]: 4300 unless set otherwise, 0
    when the limit is switched off or the interpreter has none. *)
Variable int_max_str_digits : nat.

(** [icalendar]'s serializer, [Calendar.to_ical], to bytes: a function
    of the calendar it is given, taken as total. *)
Variable to_ical : Calendar -> list Byte.byte.

Definition classify (c : char) : uclass :=
  if (c <? 128)%N then ascii_class c else ucd c.

(** [Py_UNICODE_ISDECIMAL] and [Py_UNICODE_ISSPACE]. *)
Definition isdecimal (c : char) : bool :=
  match classify c with Decimal _ => true | _ => false end.

Definition isspace (c : char) : bool :=
  match classify c with Space => true | _ => false end.

(** *** The matcher of [re] *)

Definition category_ok (cat : category) (c : char) : bool :=
  match cat with
  | CATEGORY_DIGIT => isdecimal c
  | CATEGORY_SPACE => isspace c
  end.

Definition setitem_ok (i : setitem) (c : char) : bool :=
  match i with
  | LITERAL l => N.eqb c l
  | CATEGORY cat => category_ok cat c
  end.

Definition atom_ok (a : atom) (c : char) : bool :=
  match a with
  | Lit l => N.eqb c l
  | ANY_ALL => true
  | IN items => existsb (fun i => setitem_ok i c) items
  end.

Section Backtracking.
Variable R : Type.

(** Greedy repetition of a one-character test, at least [min] times: take
    one more character first and fall back to stopping here. *)
Fixpoint max_repeat (p : char -> bool) (min : nat) (s : str)
         (k : str -> option R) : option R :=
  match s with
  | c :: s' =>
      if p c then
        match max_repeat p (pred min) s' k with
        | Some x => Some x
        | None => match min with O => k s | S _ => None end
        end
      else match min with O => k s | S _ => None end
  | [] => match min with O => k s | S _ => None end
  end.

(** Lazy repetition: stop here first and take one more character only
    when the rest of the pattern fails. *)
Fixpoint min_repeat (p : char -> bool) (min : nat) (s : str)
         (k : str -> option R) : option R :=
  match min with
  | O =>
      match k s with
      | Some x => Some x
      | None =>
          match s with
          | c :: s' => if p c then min_repeat p O s' k else None
          | [] => None
          end
      end
  | S m =>
      match s with
      | c :: s' => if p c then min_repeat p m s' k else None
      | [] => None
      end
  end.
End Backtracking.

(** The continuation that ends a pattern: whatever is left is accepted. *)
Definition accept : str -> groups -> option (str * groups) :=
  fun s g => Some (s, g).

(** [rmatch r s g k]: match [r] at the front of [s], with the groups [g]
    captured so far; [k] is the rest of the pattern, called on what is
    left of [s], and a [None] from it makes the matcher backtrack. *)
Fixpoint rmatch (r : regex) (s : str) (g : groups)
         (k : str -> groups -> option (str * groups)) : option (str * groups) :=
  match r with
  | Empty => k s g
  | Atom a =>
      match s with
      | c :: s' => if atom_ok a c then k s' g else None
      | [] => None
      end
  | Seq r1 r2 => rmatch r1 s g (fun s' g' => rmatch r2 s' g' k)
  | BRANCH r1 r2 =>
      match rmatch r1 s g k with
      | Some x => Some x
      | None => rmatch r2 s g k
      end
  | MAX_REPEAT min a => max_repeat (atom_ok a) min s (fun s' => k s' g)
  | MIN_REPEAT min a => min_repeat (atom_ok a) min s (fun s' => k s' g)
  | SUBPATTERN i r1 =>
      rmatch r1 s g
        (fun s' g' => k s' ((i, firstn (length s - length s') s) :: g'))
  | ASSERT r1 =>
      match rmatch r1 s g accept with
      | Some (_, g') => k s g'
      | None => None
      end
  | AT_END => if at_end s then k s g else None
  end.

(** A match object: where the match starts and ends, and its groups. *)
Record Match : Type := mkMatch {
  m_start : nat;
  m_end : nat;
  m_groups : groups
}.

(** [pattern.match] at the front of [s], which sits at offset [pos]. *)
Definition match_here (r : regex) (s : str) (pos : nat) : option Match :=
  match rmatch r s [] accept with
  | Some (s', g') => Some (mkMatch pos (pos + (length s - length s')) g')
  | None => None
  end.

(** [pattern.finditer]: try every offset from left to right; after a
    match, resume where it ended ([skip] counts the characters of the
    last match still to be passed; an empty match resumes one character
    further on). *)
Fixpoint finditer_from (r : regex) (s : str) (pos skip : nat) : list Match :=
  match skip with
  | S skip' =>
      match s with
      | [] => []
      | _ :: s' => finditer_from r s' (S pos) skip'
      end
  | O =>
      match match_here r s pos with
      | Some m =>
          m :: match s with
               | [] => []
               | _ :: s' =>
                   finditer_from r s' (S pos) (pred (m_end m - m_start m))
               end
      | None =>
          match s with
          | [] => []
          | _ :: s' => finditer_from r s' (S pos) O
          end
      end
  end.

Definition finditer (r : regex) (s : str) : list Match :=
  finditer_from r s O O.

(** A group that took no part in the match reads as the empty string. *)
Definition group_str (i : nat) (m : Match) : str :=
  match group i (m_groups m) with Some v => v | None => [] end.

(** [pattern.findall] for a pattern with two groups: the pairs. *)
Definition findall (r : regex) (s : str) : list (str * str) :=
  map (fun m => (group_str 1 m, group_str 2 m)) (finditer r s).

(** *** [int] and [str.strip] *)

(** The value of a string of decimal digits; any other character makes
    it an invalid literal. *)
Fixpoint int_digits (acc : Z) (s : str) : result Z :=
  match s with
  | [] => Ok acc
  | c :: s' =>
      match classify c with
      | Decimal v => int_digits (acc * 10 + v) s'
      | _ => Raise ValueError_invalid_literal
      end
  end.

(** The literal has more digits than the interpreter's limit allows. *)
Definition over_digit_limit (s : str) : bool :=
  (0 <? int_max_str_digits) && (int_max_str_digits <? length s).

(** [int(s)] on a string of decimal digits: the empty string is an
    invalid literal, and so is a string over the digit limit. *)
Definition int (s : str) : result Z :=
  match s with
  | [] => Raise ValueError_invalid_literal
  | _ =>
      if over_digit_limit s then Raise (ValueError_too_many_digits (length s))
      else int_digits 0 s
  end.

Fixpoint lstrip (s : str) : str :=
  match s with
  | c :: s' => if isspace c then lstrip s' else s
  | [] => []
  end.

Definition rstrip (s : str) : str := rev (lstrip (rev s)).

Definition strip (s : str) : str := rstrip (lstrip s).

(** *** The program *)

(** [r'Day (\d+)[:\s]+(.*?)(?=Day \d+|$)'], compiled with [re.DOTALL]. *)
Definition day_pattern : regex :=
  (literal (u "Day ")
   \; SUBPATTERN 1 (MAX_REPEAT 1 (IN [CATEGORY CATEGORY_DIGIT]))
   \; MAX_REPEAT 1 (IN [LITERAL 58%N; CATEGORY CATEGORY_SPACE])
   \; SUBPATTERN 2 (MIN_REPEAT 0 ANY_ALL)
   \; ASSERT (BRANCH (literal (u "Day ")
                      \; MAX_REPEAT 1 (IN [CATEGORY CATEGORY_DIGIT]))
                     AT_END))%re.

Definition PRODID : str := u "-//AI Travel Planner//github.com//".
Definition VERSION : str := u "2.0".

(** The summary of the fallback event, the four ideographs of the source. *)
Definition fallback_summary : str := [26053; 34892; 34892; 31243]%N.

(** The f-string of the per-day summary: an ideograph, a blank, the day
    number, a blank and three ideographs. *)
Definition day_summary (day_num : Z) : str :=
  ([31532; 32] ++ str_of_int day_num ++ [32; 22825; 34892; 31243])%N.

(** The body of the [for] loop: one event per extracted pair. *)
Definition add_day (start_date : datetime) (cal : Calendar)
           (day : str * str) : M Calendar :=
  (let '(day_num, day_content) := day in
   day_num <- lift (int day_num) ;;
   delta <- lift (timedelta_days (day_num - 1)) ;;
   current_date <- lift (datetime_add start_date delta) ;;
   stamp <- now ;;
   ret (add_component cal
          (mkEvent (day_summary day_num) (strip day_content)
                   (date_of current_date) (date_of current_date) stamp)))%M.

(** The calendar [generate_ics_content] builds before serializing it. *)
Definition build_calendar (plan_text : str) (start_date : option datetime)
  : M Calendar :=
  (let cal := mkCalendar PRODID VERSION [] in
   start_date <- match start_date with
                 | None => today
                 | Some d => ret d
                 end ;;
   let days := findall day_pattern plan_text in
   match days with
   | [] =>
       stamp <- now ;;
       ret (add_component cal
              (mkEvent fallback_summary plan_text
                       (date_of start_date) (date_of start_date) stamp))
   | _ => for_each (add_day start_date) cal days
   end)%M.

Definition generate_ics_content (plan_text : str)
           (start_date : option datetime) : M (list Byte.byte) :=
  (cal <- build_calendar plan_text start_date ;;
   ret (to_ical cal))%M.

(** *** What the pattern matches, read off the text directly

    These definitions describe the matches without the matcher; the
    lemmas below prove that [rmatch] on [day_pattern] computes them. *)

(** [s] without its prefix [p], when it has it. *)
Fixpoint strip_prefix (p s : str) : option str :=
  match p with
  | [] => Some s
  | a :: p' =>
      match s with
      | c :: s' => if N.eqb c a then strip_prefix p' s' else None
      | [] => None
      end
  end.

(** The longest prefix of characters passing [p], and the rest. *)
Fixpoint span (p : char -> bool) (s : str) : str * str :=
  match s with
  | c :: s' =>
      if p c then let '(a, b) := span p s' in (c :: a, b) else ([], s)
  | [] => ([], [])
  end.

(** A colon or a white-space character. *)
Definition is_sep (c : char) : bool := N.eqb c 58%N || isspace c.

(** "Day " followed by a digit starts here. *)
Definition day_digit_ahead (s : str) : bool :=
  match strip_prefix (u "Day ") s with
  | Some (c :: _) => isdecimal c
  | _ => false
  end.

(** The lookahead that closes a segment. *)
Definition lookahead (s : str) : bool := day_digit_ahead s || at_end s.

(** The shortest prefix after which [lookahead] holds, and the rest. *)
Fixpoint content_split (s : str) : str * str :=
  match s with
  | c :: s' =>
      if lookahead s then ([], s)
      else let '(a, b) := content_split s' in (c :: a, b)
  | [] => ([], [])
  end.

(** A day marker starts here: "Day ", one or more digits, then a colon or
    a white-space character. *)
Definition marker_at (s : str) : bool :=
  match strip_prefix (u "Day ") s with
  | Some s1 =>
      match span isdecimal s1 with
      | (_ :: _, c :: _) => is_sep c
      | _ => false
      end
  | None => false
  end.

(** A day marker starts somewhere in [s]. *)
Fixpoint has_day_marker (s : str) : bool :=
  match s with
  | [] => false
  | _ :: s' => marker_at s || has_day_marker s'
  end.

(** The segment that starts at the front of [s]: its digits, its content
    and the text left after it. *)
Definition day_match (s : str) : option (str * str * str) :=
  match strip_prefix (u "Day ") s with
  | Some s1 =>
      let '(ds, s2) := span isdecimal s1 in
      let '(seps, s3) := span is_sep s2 in
      match ds, seps with
      | _ :: _, _ :: _ =>
          let '(content, rest) := content_split s3 in Some (ds, content, rest)
      | _, _ => None
      end
  | None => None
  end.

(** The offsets, counted from [pos], at which a day marker starts. *)
Fixpoint marker_positions (s : str) (pos : nat) : list nat :=
  match s with
  | [] => []
  | _ :: s' =>
      if marker_at s then pos :: marker_positions s' (S pos)
      else marker_positions s' (S pos)
  end.

(** *** What the loop computes, per extracted pair *)

(** The day number of a pair. *)
Definition day_number (day : str * str) : Z :=
  match int_digits 0 (fst day) with Ok n => n | Raise _ => 0%Z end.

(** The ordinal of [start_date + (N - 1) days]. *)
Definition day_ordinal (start_date : datetime) (day : str * str) : Z :=
  (toordinal (date_of start_date) + (day_number day - 1))%Z.

(** That date is one [datetime] can represent. *)
Definition day_in_range (start_date : datetime) (day : str * str) : bool :=
  ((MINORDINAL <=? day_ordinal start_date day)
   && (day_ordinal start_date day <=? MAXORDINAL))%Z.

Definition day_event (start_date stamp : datetime) (day : str * str) : Event :=
  mkEvent (day_summary (day_number day)) (strip (snd day))
          (mkdate (day_ordinal start_date day))
          (mkdate (day_ordinal start_date day)) stamp.

(** The events of a run of the loop that reads the clock from [n] on. *)
Fixpoint day_events (start_date : datetime) (clk : clock) (n : nat)
         (days : list (str * str)) : list Event :=
  match days with
  | [] => []
  | day :: days' =>
      day_event start_date (clk n) day :: day_events start_date clk (S n) days'
  end.

(** The loop gets through a day when [int] takes its digits and
    [datetime] can represent its date. *)
Definition day_ok (start_date : datetime) (day : str * str) : bool :=
  negb (over_digit_limit (fst day)) && day_in_range start_date day.

(** What the loop raises for a day it does not get through: the error of
    [int], or else that of [timedelta], or else that of the addition. *)
Definition day_error (day : str * str) : exn :=
  if over_digit_limit (fst day)
  then ValueError_too_many_digits (length (fst day))
  else if (Z.abs (day_number day - 1) <=? 999999999)%Z then OverflowError_date
  else OverflowError_timedelta (day_number day - 1).

(** The start date in effect: the argument, or the clock's next reading. *)
Definition effective_start (start_date : option datetime) (clk : clock)
           (n : nat) : datetime :=
  match start_date with Some d => d | None => clk n end.




(** [s] is made of white space only. *)
Definition all_space (s : str) : Prop := Forall (fun c => isspace c = true) s.

(** [t] occurs in [s]. *)
Definition occurs_in (t s : str) : Prop := exists l r, s = l ++ t ++ r.

(** The clock's counter once the start date is settled: omitting the
    argument costs one reading. *)
Definition after_start (start_date : option datetime) (n : nat) : nat :=
  match start_date with Some _ => n | None => S n end.

(** The first day of the list that the loop does not get through. *)
Definition first_failing (start_date : datetime)
           (days : list (str * str)) : option (str * str) :=
  find (fun day => negb (day_ok start_date day)) days.

(** The one event of a text without day markers. *)
Definition fallback_event (plan_text : str) (start_date stamp : datetime)
  : Event :=
  mkEvent fallback_summary plan_text
          (date_of start_date) (date_of start_date) stamp.

(** No day marker starts within the first [n] characters of [s]. *)
Fixpoint marker_free (n : nat) (s : str) : bool :=
  match n with
  | O => true
  | S n' =>
      match s with
      | [] => true
      | _ :: s' => negb (marker_at s) && marker_free n' s'
      end
  end.



(** The digit values of the character database are not negative. *)
Definition digit_values_nonnegative : Prop :=
  forall c v, ucd c = Decimal v -> (0 <= v)%Z.

(** *** The download column of the page

    The block under [with col2:]: when the session holds an itinerary, the
    page converts it, with no start date, and offers the bytes as a
    file. *)




(** *** A sample run

    The two-day text, and the calendar the converter builds from it on
    2024-01-01 under [sample_clock]. *)

Definition two_days : str :=
  u "Day 1: Visit museum" ++ LF :: u "Day 2: Beach".

Definition two_days_calendar : Calendar :=
  mkCalendar PRODID VERSION
    [mkEvent (day_summary 1) (u "Visit museum")
             (ymd 2024 1 1) (ymd 2024 1 1) (sample_clock 0);
     mkEvent (day_summary 2) (u "Beach")
             (ymd 2024 1 2) (ymd 2024 1 2) (sample_clock 1)].

(** ** Lists and spans *)

Lemma span_app (p : char -> bool) (s : str) :
  fst (span p s) ++ snd (span p s) = s.
Proof.
  induction s as [|c s IH]; simpl; [reflexivity|].
  destruct (p c); [|reflexivity].
  destruct (span p s) as [a b]; simpl in *. now rewrite IH.
Qed.

Lemma span_all (p : char -> bool) (s : str) :
  Forall (fun c => p c = true) (fst (span p s)).
Proof.
  induction s as [|c s IH]; simpl; [constructor|].
  destruct (p c) eqn:E; [|constructor].
  destruct (span p s) as [a b]; simpl in *. now constructor.
Qed.

Lemma span_stops (p : char -> bool) (s : str) (c : char) (t : str) :
  snd (span p s) = c :: t -> p c = false.
Proof.
  induction s as [|d s IH]; simpl; [discriminate|].
  destruct (p d) eqn:E.
  - destruct (span p s) as [a b]; simpl in *. exact IH.
  - simpl. now intros [= <- <-].
Qed.

(** A run of [p] followed by a character failing [p] is the span. *)
Lemma span_exact (p : char -> bool) (a : str) (c : char) (t : str) :
  Forall (fun x => p x = true) a -> p c = false ->
  span p (a ++ c :: t) = (a, c :: t).
Proof.
  induction 1 as [|x a Hx _ IH]; intros Hc; simpl.
  - now rewrite Hc.
  - rewrite Hx, IH by assumption. reflexivity.
Qed.

Lemma firstn_suffix_length (A : Type) (a b : list A) :
  firstn (length (a ++ b) - length b) (a ++ b) = a.
Proof.
  rewrite length_app, Nat.add_sub.
  rewrite firstn_app, Nat.sub_diag, firstn_all. simpl. apply app_nil_r.
Qed.

Lemma strip_prefix_app (p s t : str) :
  strip_prefix p s = Some t -> s = p ++ t.
Proof.
  revert s; induction p as [|a p IH]; intros s; simpl.
  - now intros [= ->].
  - destruct s as [|c s]; [discriminate|].
    destruct (N.eqb_spec c a) as [->|]; [|discriminate].
    intros H. now rewrite (IH _ H).
Qed.

Lemma strip_prefix_self (p t : str) : strip_prefix p (p ++ t) = Some t.
Proof.
  induction p as [|a p IH]; simpl; [reflexivity|].
  now rewrite N.eqb_refl.
Qed.

(** ** The matcher on the pieces of [day_pattern] *)

Lemma rmatch_literal (p s : str) (g : groups) k :
  rmatch (literal p) s g k =
  match strip_prefix p s with Some t => k t g | None => None end.
Proof.
  revert s; induction p as [|a p IH]; intros s; simpl; [reflexivity|].
  destruct s as [|c s]; [reflexivity|].
  destruct (N.eqb c a); [apply IH | reflexivity].
Qed.

(** With a continuation that accepts the longest run, greedy repetition
    takes the longest run. *)
Lemma max_repeat_longest (R : Type) (p : char -> bool) (min : nat) (s : str)
      (k : str -> option R) (x : R) :
  k (snd (span p s)) = Some x ->
  min <= length (fst (span p s)) ->
  max_repeat p min s k = Some x.
Proof.
  revert min; induction s as [|c s IH]; intros min; simpl.
  - intros Hk Hm. now replace min with O by lia.
  - destruct (p c) eqn:E.
    + destruct (span p s) as [a b] eqn:Es; simpl in *.
      intros Hk Hm. rewrite (IH (pred min)); auto. lia.
    + simpl. intros Hk Hm. now replace min with O by lia.
Qed.

(** With a continuation that rejects every text starting with a [p]
    character, giving back characters of the run never helps. *)
Lemma max_repeat_no_backtrack (R : Type) (p : char -> bool) (min : nat)
      (s : str) (k : str -> option R) :
  (forall c t, p c = true -> k (c :: t) = None) ->
  max_repeat p min s k =
  if min <=? length (fst (span p s)) then k (snd (span p s)) else None.
Proof.
  intros Hk. revert min; induction s as [|c s IH]; intros min; simpl.
  - now destruct min.
  - destruct (p c) eqn:E.
    + rewrite IH. destruct (span p s) as [a b] eqn:Es; simpl.
      destruct min as [|min]; simpl.
      * destruct (k b); [reflexivity|]. now apply Hk.
      * destruct (min <=? length a); [|reflexivity].
        now destruct (k b).
    + simpl. now destruct min.
Qed.

Lemma max_repeat_short (R : Type) (p : char -> bool) (min : nat) (s : str)
      (k : str -> option R) :
  length (fst (span p s)) < min -> max_repeat p min s k = None.
Proof.
  revert min; induction s as [|c s IH]; intros min; simpl.
  - destruct min; [lia | reflexivity].
  - destruct (p c) eqn:E.
    + destruct (span p s) as [a b] eqn:Es; simpl in *. intros Hm.
      rewrite IH by lia. destruct min; [lia | reflexivity].
    + simpl. destruct min; [lia | reflexivity].
Qed.

Lemma max_repeat_ext (R : Type) (p q : char -> bool) (min : nat) (s : str)
      (k k' : str -> option R) :
  (forall c, p c = q c) -> (forall t, k t = k' t) ->
  max_repeat p min s k = max_repeat q min s k'.
Proof.
  intros Hp Hk. revert min; induction s as [|c s IH]; intros min; simpl.
  - now rewrite Hk.
  - rewrite Hp, IH, Hk. reflexivity.
Qed.

Lemma min_repeat_ext (R : Type) (p q : char -> bool) (min : nat) (s : str)
      (k k' : str -> option R) :
  (forall c, p c = q c) -> (forall t, k t = k' t) ->
  min_repeat p min s k = min_repeat q min s k'.
Proof.
  intros Hp Hk. revert min; induction s as [|c s IH]; intros min.
  - destruct min; simpl; [now rewrite Hk | reflexivity].
  - destruct min; simpl.
    + rewrite Hk, Hp, IH. reflexivity.
    + rewrite Hp, IH. reflexivity.
Qed.

Lemma span_ext (p q : char -> bool) (s : str) :
  (forall c, p c = q c) -> span p s = span q s.
Proof.
  intros H. induction s as [|c s IH]; simpl; [reflexivity|].
  now rewrite H, IH.
Qed.

Lemma span_nonempty (p : char -> bool) (s : str) :
  (1 <=? length (fst (span p s))) =
  match s with c :: _ => p c | [] => false end.
Proof.
  destruct s as [|c s]; simpl; [reflexivity|].
  destruct (p c); [|reflexivity].
  now destruct (span p s).
Qed.

(** ** Character classes *)

Lemma atom_ok_digit (c : char) :
  atom_ok (IN [CATEGORY CATEGORY_DIGIT]) c = isdecimal c.
Proof. simpl. apply orb_false_r. Qed.

Lemma atom_ok_sep (c : char) :
  atom_ok (IN [LITERAL 58%N; CATEGORY CATEGORY_SPACE]) c = is_sep c.
Proof. unfold is_sep. simpl. now rewrite orb_false_r. Qed.

Lemma colon_class : classify 58%N = Other.
Proof. reflexivity. Qed.

(** No character is both a decimal digit and a separator. *)
Lemma digit_not_sep (c : char) : isdecimal c = true -> is_sep c = false.
Proof.
  unfold isdecimal, is_sep, isspace. intros H.
  destruct (N.eqb_spec c 58%N) as [->|_].
  - now rewrite colon_class in H.
  - now destruct (classify c).
Qed.

Lemma sep_not_digit (c : char) : is_sep c = true -> isdecimal c = false.
Proof.
  intros H. destruct (isdecimal c) eqn:E; [|reflexivity].
  apply digit_not_sep in E. congruence.
Qed.

(** The letter D is neither a digit nor a separator. *)
Lemma D_class : classify 68%N = Other.
Proof. reflexivity. Qed.

(** ** The lookahead and the lazy content *)

Lemma rmatch_lookahead (s : str) (g : groups) k :
  rmatch (ASSERT (BRANCH (Seq (literal (u "Day "))
                              (MAX_REPEAT 1 (IN [CATEGORY CATEGORY_DIGIT])))
                         AT_END)) s g k =
  if lookahead s then k s g else None.
Proof.
  cbn [rmatch]. rewrite rmatch_literal. unfold lookahead, day_digit_ahead.
  destruct (strip_prefix (u "Day ") s) as [t|] eqn:Ep.
  - cbn [rmatch].
    rewrite max_repeat_ext
      with (q := isdecimal) (k' := fun s' => Some (s', g))
      by (auto using atom_ok_digit).
    destruct t as [|c t].
    + simpl. now destruct (at_end s).
    + destruct (isdecimal c) eqn:Ec.
      * rewrite max_repeat_longest
          with (x := (snd (span isdecimal (c :: t)), g));
          [reflexivity | reflexivity |].
        pose proof (span_nonempty isdecimal (c :: t)) as Hn.
        simpl in Hn |- *. rewrite Ec in Hn |- *.
        apply Nat.leb_le. exact Hn.
      * rewrite max_repeat_short; [now destruct (at_end s)|].
        simpl. rewrite Ec. simpl. lia.
  - simpl. now destruct (at_end s).
Qed.

Lemma content_split_app (s : str) :
  fst (content_split s) ++ snd (content_split s) = s.
Proof.
  induction s as [|c s IH]; [reflexivity|].
  cbn [content_split]. destruct (lookahead (c :: s)); [reflexivity|].
  destruct (content_split s) as [a b]; simpl in *. now rewrite IH.
Qed.

(** The text left after the content is where the lookahead holds. *)
Lemma content_split_stops (s : str) :
  lookahead (snd (content_split s)) = true.
Proof.
  induction s as [|c s IH]; [reflexivity|].
  cbn [content_split]. destruct (lookahead (c :: s)) eqn:E; [exact E|].
  destruct (content_split s) as [a b]; simpl in *. exact IH.
Qed.

(** The lookahead holds nowhere inside the content. *)
Lemma content_split_minimal (s : str) (i : nat) :
  i < length (fst (content_split s)) -> lookahead (skipn i s) = false.
Proof.
  revert i; induction s as [|c s IH]; intros i; [simpl; lia|].
  cbn [content_split]. destruct (lookahead (c :: s)) eqn:E; [simpl; lia|].
  destruct (content_split s) as [a b] eqn:Es; simpl in *.
  destruct i as [|i]; [intros _; exact E|].
  intros Hi. apply IH. lia.
Qed.

Lemma min_repeat_content (R : Type) (s : str) (K : str -> R) :
  min_repeat (fun _ => true) 0 s
    (fun s' => if lookahead s' then Some (K s') else None) =
  Some (K (snd (content_split s))).
Proof.
  induction s as [|c s IH]; [reflexivity|].
  cbn [min_repeat content_split].
  destruct (lookahead (c :: s)); [reflexivity|].
  rewrite IH. now destruct (content_split s).
Qed.

(** The tail of the pattern, from the content group on, always matches. *)
Lemma rmatch_content (s : str) (g : groups) :
  rmatch (Seq (SUBPATTERN 2 (MIN_REPEAT 0 ANY_ALL))
              (ASSERT (BRANCH (Seq (literal (u "Day "))
                                   (MAX_REPEAT 1 (IN [CATEGORY CATEGORY_DIGIT])))
                              AT_END))) s g accept =
  Some (snd (content_split s), (2, fst (content_split s)) :: g).
Proof.
  cbn [rmatch].
  rewrite min_repeat_ext
    with (q := fun _ => true)
         (k' := fun s' =>
                  if lookahead s'
                  then Some (s', (2, firstn (length s - length s') s) :: g)
                  else None).
  - rewrite (min_repeat_content s
               (fun s' => (s', (2, firstn (length s - length s') s) :: g))).
    pose proof (content_split_app s) as Happ.
    destruct (content_split s) as [a b]; simpl in *. subst s.
    now rewrite firstn_suffix_length.
  - reflexivity.
  - intros t.
    exact (rmatch_lookahead t ((2, firstn (length s - length t) s) :: g) accept).
Qed.

(** ** The whole pattern *)

(** From the separators on: the longest run of separators, then the
    content; nothing is given back, since the content always matches. *)
Lemma rmatch_separators (s : str) (g : groups) :
  rmatch (Seq (MAX_REPEAT 1 (IN [LITERAL 58%N; CATEGORY CATEGORY_SPACE]))
           (Seq (SUBPATTERN 2 (MIN_REPEAT 0 ANY_ALL))
              (ASSERT (BRANCH (Seq (literal (u "Day "))
                                 (MAX_REPEAT 1 (IN [CATEGORY CATEGORY_DIGIT])))
                         AT_END)))) s g accept =
  match fst (span is_sep s) with
  | _ :: _ =>
      let s3 := snd (span is_sep s) in
      Some (snd (content_split s3), (2, fst (content_split s3)) :: g)
  | [] => None
  end.
Proof.
  match goal with
  | |- rmatch (Seq (MAX_REPEAT 1 ?a) ?tail) s g accept = _ =>
      change (rmatch (Seq (MAX_REPEAT 1 a) tail) s g accept)
        with (max_repeat (atom_ok a) 1 s (fun s' => rmatch tail s' g accept))
  end.
  rewrite max_repeat_ext
    with (q := is_sep)
         (k' := fun s' => Some (snd (content_split s'),
                                (2, fst (content_split s')) :: g))
    by (auto using atom_ok_sep, rmatch_content).
  destruct (fst (span is_sep s)) as [|c a] eqn:E.
  - apply max_repeat_short. rewrite E. simpl. lia.
  - apply max_repeat_longest; [reflexivity|]. rewrite E. simpl. lia.
Qed.

(** A text that starts with a digit is no place for the separators. *)
Lemma rmatch_separators_digit (c : char) (t : str) (g : groups) :
  isdecimal c = true ->
  rmatch (Seq (MAX_REPEAT 1 (IN [LITERAL 58%N; CATEGORY CATEGORY_SPACE]))
           (Seq (SUBPATTERN 2 (MIN_REPEAT 0 ANY_ALL))
              (ASSERT (BRANCH (Seq (literal (u "Day "))
                                 (MAX_REPEAT 1 (IN [CATEGORY CATEGORY_DIGIT])))
                         AT_END)))) (c :: t) g accept = None.
Proof.
  intros Hc. rewrite rmatch_separators. simpl.
  now rewrite (digit_not_sep _ Hc).
Qed.

(** What [day_pattern] matches at the front of a text is [day_match]. *)
Lemma rmatch_day_pattern (s : str) :
  rmatch day_pattern s [] accept =
  match day_match s with
  | Some (ds, content, rest) => Some (rest, [(2, content); (1, ds)])
  | None => None
  end.
Proof.
  unfold day_pattern, day_match.
  match goal with
  | |- rmatch (Seq (literal ?p) ?r) s [] accept = _ =>
      change (rmatch (Seq (literal p) r) s [] accept)
        with (rmatch (literal p) s [] (fun s' g' => rmatch r s' g' accept))
  end.
  rewrite rmatch_literal.
  destruct (strip_prefix (u "Day ") s) as [s1|]; [|reflexivity].
  match goal with
  | |- rmatch (Seq (SUBPATTERN 1 (MAX_REPEAT 1 ?a)) ?r) s1 [] accept = _ =>
      change (rmatch (Seq (SUBPATTERN 1 (MAX_REPEAT 1 a)) r) s1 [] accept)
        with (max_repeat (atom_ok a) 1 s1
                (fun s' => rmatch r s' [(1, firstn (length s1 - length s') s1)]
                             accept))
  end.
  rewrite max_repeat_ext
    with (q := isdecimal)
         (k' := fun s' =>
                  match fst (span is_sep s') with
                  | _ :: _ =>
                      let s3 := snd (span is_sep s') in
                      Some (snd (content_split s3),
                            [(2, fst (content_split s3));
                             (1, firstn (length s1 - length s') s1)])
                  | [] => None
                  end)
    by (auto using atom_ok_digit, rmatch_separators).
  rewrite max_repeat_no_backtrack.
  - pose proof (span_app isdecimal s1) as Happ.
    destruct (span isdecimal s1) as [ds s2]; simpl in Happ |- *.
    destruct (span is_sep s2) as [seps s3]; simpl.
    destruct ds as [|d ds]; [reflexivity|]. cbn [length Nat.leb].
    destruct seps as [|c seps]; [reflexivity|].
    subst s1. rewrite firstn_suffix_length.
    now destruct (content_split s3).
  - intros c t Hc. simpl. now rewrite (digit_not_sep _ Hc).
Qed.

Lemma match_here_day_pattern (s : str) (pos : nat) :
  match_here day_pattern s pos =
  match day_match s with
  | Some (ds, content, rest) =>
      Some (mkMatch pos (pos + (length s - length rest))
                    [(2, content); (1, ds)])
  | None => None
  end.
Proof.
  unfold match_here. rewrite rmatch_day_pattern.
  now destruct (day_match s) as [[[ds content] rest]|].
Qed.

(** ** Segments *)

Lemma Day_chars : u "Day " = [68; 97; 121; 32]%N.
Proof. reflexivity. Qed.

(** The shape of the text at a segment. *)
Lemma day_match_inv (s ds content rest : str) :
  day_match s = Some (ds, content, rest) ->
  exists seps,
    s = u "Day " ++ ds ++ seps ++ content ++ rest /\
    ds <> [] /\ Forall (fun c => isdecimal c = true) ds /\
    seps <> [] /\ Forall (fun c => is_sep c = true) seps /\
    content_split (content ++ rest) = (content, rest).
Proof.
  unfold day_match.
  destruct (strip_prefix (u "Day ") s) as [s1|] eqn:Ep; [|discriminate].
  apply strip_prefix_app in Ep.
  pose proof (span_app isdecimal s1) as H1.
  pose proof (span_all isdecimal s1) as A1.
  destruct (span isdecimal s1) as [ds' s2]; simpl in H1, A1.
  pose proof (span_app is_sep s2) as H2.
  pose proof (span_all is_sep s2) as A2.
  destruct (span is_sep s2) as [seps s3]; simpl in H2, A2.
  destruct ds' as [|d ds']; [discriminate|].
  destruct seps as [|c seps]; [discriminate|].
  pose proof (content_split_app s3) as H3.
  destruct (content_split s3) as [a b] eqn:E3; simpl in H3.
  intros [= <- <- <-]. exists (c :: seps).
  subst s3 s2 s1. repeat split; try assumption; try discriminate.
Qed.

Lemma day_match_shorter (s ds content rest : str) :
  day_match s = Some (ds, content, rest) -> length rest + 6 <= length s.
Proof.
  intros H. destruct (day_match_inv _ H) as (seps & -> & Hd & _ & Hs & _).
  rewrite !length_app. rewrite Day_chars. simpl.
  destruct ds; [congruence|]. destruct seps; [congruence|]. simpl. lia.
Qed.

(** A marker starts exactly where a segment matches. *)
Lemma marker_at_day_match (s : str) :
  marker_at s = match day_match s with Some _ => true | None => false end.
Proof.
  unfold marker_at, day_match.
  destruct (strip_prefix (u "Day ") s) as [s1|]; [|reflexivity].
  destruct (span isdecimal s1) as [ds s2].
  pose proof (span_nonempty is_sep s2) as Hn.
  destruct (span is_sep s2) as [seps s3]; simpl in Hn.
  destruct ds as [|d ds].
  - reflexivity.
  - destruct s2 as [|c s2]; destruct seps as [|x seps]; simpl in Hn;
      try rewrite <- Hn; try reflexivity; now destruct (content_split s3).
Qed.

Lemma marker_at_D (s : str) :
  marker_at s = true -> exists t, s = 68%N :: t.
Proof.
  unfold marker_at.
  destruct (strip_prefix (u "Day ") s) as [s1|] eqn:Ep; [|discriminate].
  apply strip_prefix_app in Ep. rewrite Day_chars in Ep. subst s.
  intros _. eexists. reflexivity.
Qed.

Lemma marker_at_day_digit (s : str) :
  marker_at s = true -> day_digit_ahead s = true.
Proof.
  unfold marker_at, day_digit_ahead.
  destruct (strip_prefix (u "Day ") s) as [s1|]; [|discriminate].
  destruct s1 as [|c s1]; [discriminate|]. simpl.
  destruct (isdecimal c); [reflexivity | discriminate].
Qed.

(** Induction along the segments of a text: either no segment starts at
    the front and the scan moves by one character, or one does and the
    scan resumes after it. *)
Lemma segment_ind (P : str -> Prop) :
  P [] ->
  (forall c s, day_match (c :: s) = None -> P s -> P (c :: s)) ->
  (forall s ds content rest,
      day_match s = Some (ds, content, rest) -> P rest -> P s) ->
  forall s, P s.
Proof.
  intros H0 Hstep Hseg s.
  remember (length s) as n eqn:Hn. revert s Hn.
  induction n as [n IH] using (well_founded_induction lt_wf).
  intros s ->.
  destruct (day_match s) as [[[ds content] rest]|] eqn:E.
  - apply (Hseg _ _ _ _ E). apply (IH (length rest)); [|reflexivity].
    apply day_match_shorter in E. lia.
  - destruct s as [|c s]; [exact H0|].
    apply (Hstep _ _ E). apply (IH (length s)); [simpl; lia | reflexivity].
Qed.

(** ** [finditer] *)

(** Passing the characters of the last match is dropping them. *)
Lemma finditer_from_skip (r : regex) (skip : nat) (s : str) (pos : nat) :
  skip <= length s ->
  finditer_from r s pos skip = finditer_from r (skipn skip s) (pos + skip) 0.
Proof.
  revert s pos; induction skip as [|k IH]; intros s pos Hk.
  - now rewrite Nat.add_0_r.
  - destruct s as [|c s]; [simpl in Hk; lia|].
    cbn [finditer_from skipn]. rewrite IH by (simpl in Hk; lia).
    f_equal. lia.
Qed.

(** The offset at which the scan starts moves the matches and changes
    nothing else. *)
Lemma finditer_from_groups (r : regex) (s : str) (pos pos' skip : nat) :
  map m_groups (finditer_from r s pos skip) =
  map m_groups (finditer_from r s pos' skip).
Proof.
  revert pos pos' skip; induction s as [|c s IH]; intros pos pos' skip.
  - destruct skip; [|reflexivity]. cbn [finditer_from]. unfold match_here.
    now destruct (rmatch r [] [] accept) as [[s' g']|].
  - destruct skip as [|k]; cbn [finditer_from]; [|apply IH].
    unfold match_here.
    destruct (rmatch r (c :: s) [] accept) as [[s' g']|]; cbn [map m_groups].
    + f_equal. cbn [m_end m_start].
      replace (pos' + (length (c :: s) - length s') - pos')
        with (pos + (length (c :: s) - length s') - pos) by lia.
      apply IH.
    + apply IH.
Qed.

(** The scan, segment by segment. *)
Lemma finditer_day_pattern (s : str) (pos : nat) :
  finditer_from day_pattern s pos 0 =
  match day_match s with
  | Some (ds, content, rest) =>
      mkMatch pos (pos + (length s - length rest)) [(2, content); (1, ds)]
      :: finditer_from day_pattern rest (pos + (length s - length rest)) 0
  | None =>
      match s with
      | [] => []
      | _ :: s' => finditer_from day_pattern s' (S pos) 0
      end
  end.
Proof.
  destruct s as [|c s].
  - cbn [finditer_from]. rewrite match_here_day_pattern.
    destruct (day_match []) as [[[ds content] rest]|] eqn:E; [|reflexivity].
    apply day_match_shorter in E. simpl in E. lia.
  - cbn [finditer_from]. rewrite match_here_day_pattern.
    destruct (day_match (c :: s)) as [[[ds content] rest]|] eqn:E;
      [|reflexivity].
    f_equal. cbn [m_end m_start].
    pose proof (day_match_shorter _ E) as Hlen.
    destruct (day_match_inv _ E) as (seps & Hs & _).
    assert (Hs' : exists pre, c :: s = pre ++ rest)
      by (exists (u "Day " ++ ds ++ seps ++ content);
          now rewrite <- !app_assoc).
    destruct Hs' as [pre Hs'].
    assert (Hpre : length (c :: s) - length rest = length pre)
      by (rewrite Hs', length_app; lia).
    rewrite Hpre.
    replace (pos + length pre - pos) with (length pre) by lia.
    destruct pre as [|x pre]; [cbn [length] in Hpre, Hlen; lia|].
    injection Hs' as _ ->. cbn [length pred].
    rewrite finditer_from_skip by (rewrite length_app; lia).
    rewrite skipn_app, skipn_all, Nat.sub_diag. simpl skipn.
    f_equal. lia.
Qed.

(** [findall] on [day_pattern], segment by segment. *)
Lemma findall_day_pattern (s : str) :
  findall day_pattern s =
  match day_match s with
  | Some (ds, content, rest) => (ds, content) :: findall day_pattern rest
  | None =>
      match s with
      | [] => []
      | _ :: s' => findall day_pattern s'
      end
  end.
Proof.
  assert (Hpos : forall t pos,
             map (fun m => (group_str 1 m, group_str 2 m))
                 (finditer_from day_pattern t pos 0) = findall day_pattern t).
  { intros t pos. unfold findall, finditer.
    assert (Hg : forall l : list Match,
               map (fun m => (group_str 1 m, group_str 2 m)) l =
               map (fun g => (match group 1 g with Some v => v | None => [] end,
                              match group 2 g with Some v => v | None => [] end))
                   (map m_groups l))
      by (intros l; now rewrite map_map).
    rewrite !Hg. f_equal. apply finditer_from_groups. }
  unfold findall at 1, finditer. rewrite finditer_day_pattern.
  destruct (day_match s) as [[[ds content] rest]|].
  - cbn [map]. now rewrite Hpos.
  - destruct s as [|c s]; [reflexivity|]. apply Hpos.
Qed.

(** ** [int] on the digits the pattern captures *)

Lemma int_digits_total (ds : str) (acc : Z) :
  Forall (fun c => isdecimal c = true) ds ->
  exists n, int_digits acc ds = Ok n.
Proof.
  intros H. revert acc; induction H as [|c ds Hc _ IH]; intros acc; simpl.
  - now exists acc.
  - unfold isdecimal in Hc. destruct (classify c); try discriminate. apply IH.
Qed.

(** On the digits of a marker [int] fails for the digit limit only. *)
Lemma int_digits_spec (ds : str) :
  ds <> [] -> Forall (fun c => isdecimal c = true) ds ->
  int ds =
  if over_digit_limit ds then Raise (ValueError_too_many_digits (length ds))
  else Ok (day_number (ds, @nil char)).
Proof.
  intros Hne H. unfold int, day_number. cbn [fst].
  destruct (int_digits_total 0 H) as [n Hn]. rewrite Hn.
  destruct ds as [|c ds]; [congruence | reflexivity].
Qed.

(** Every pair [findall] extracts starts with a string of digits. *)
Lemma findall_int (s : str) :
  Forall (fun day => fst day <> [] /\
                     Forall (fun c => isdecimal c = true) (fst day))
         (findall day_pattern s).
Proof.
  induction s as [|c s Hnone IH|s ds content rest Hm IH] using segment_ind;
    rewrite findall_day_pattern.
  - now destruct (day_match []) as [[[? ?] ?]|] eqn:E;
      [apply day_match_shorter in E; simpl in E; lia|].
  - now rewrite Hnone.
  - rewrite Hm. constructor; [|exact IH].
    destruct (day_match_inv _ Hm) as (seps & _ & Hne & Hd & _).
    now split.
Qed.

(** ** One turn of the loop, and the loop *)

Lemma add_day_spec (sd : datetime) (cal : Calendar) (day : str * str)
      (clk : clock) (n : nat) :
  fst day <> [] /\ Forall (fun c => isdecimal c = true) (fst day) ->
  date_valid (date_of sd) ->
  add_day sd cal day clk n =
  if day_ok sd day
  then Ok (add_component cal (day_event sd (clk n) day), S n)
  else Raise (day_error day).
Proof.
  intros [Hne Hd] Hv. unfold date_valid, MINORDINAL, MAXORDINAL in Hv.
  unfold add_day, day_ok, day_in_range, day_event, day_error, day_ordinal.
  destruct day as [ds content]. cbn [fst snd] in *.
  unfold bind, lift, ret, now. rewrite (int_digits_spec Hne Hd).
  change (day_number (ds, [])) with (day_number (ds, content)).
  destruct (over_digit_limit ds); [reflexivity|]. cbn [negb andb].
  set (N := day_number (ds, content)).
  unfold timedelta_days, datetime_add, MINORDINAL, MAXORDINAL. simpl days.
  destruct (Z.abs (N - 1) <=? 999999999)%Z eqn:Ed.
  - simpl.
    destruct ((1 <=? toordinal (date_of sd) + (N - 1))%Z
              && (toordinal (date_of sd) + (N - 1) <=? 3652059)%Z);
      reflexivity.
  - replace ((1 <=? toordinal (date_of sd) + (N - 1))%Z
             && (toordinal (date_of sd) + (N - 1) <=? 3652059)%Z)
      with false; [reflexivity|].
    symmetry. apply andb_false_iff. rewrite !Z.leb_gt in *. lia.
Qed.

Lemma for_each_add_day (sd : datetime) (days : list (str * str))
      (cal : Calendar) (clk : clock) (n : nat) :
  Forall (fun day => fst day <> [] /\
                     Forall (fun c => isdecimal c = true) (fst day)) days ->
  date_valid (date_of sd) ->
  for_each (add_day sd) cal days clk n =
  match first_failing sd days with
  | Some day => Raise (day_error day)
  | None =>
      Ok (mkCalendar (prodid cal) (version cal)
                     (subcomponents cal ++ day_events sd clk n days),
          length days + n)
  end.
Proof.
  intros Hd Hv. revert cal n.
  induction Hd as [|day days Hday _ IH]; intros cal n.
  - simpl. unfold ret. rewrite app_nil_r. now destruct cal.
  - cbn [for_each first_failing find]. unfold bind.
    rewrite add_day_spec by assumption.
    destruct (day_ok sd day); [|reflexivity]. cbn [negb].
    rewrite IH. fold (first_failing sd days).
    destruct (first_failing sd days); [reflexivity|].
    cbn [add_component prodid version subcomponents day_events length].
    rewrite <- app_assoc. cbn [app]. do 2 f_equal. lia.
Qed.

(** ** What [build_calendar] returns *)

Lemma build_calendar_fallback (plan_text : str) (sd : option datetime)
      (clk : clock) (n : nat) :
  findall day_pattern plan_text = [] ->
  build_calendar plan_text sd clk n =
  Ok (mkCalendar PRODID VERSION
        [fallback_event plan_text (effective_start sd clk n)
                        (clk (after_start sd n))],
      S (after_start sd n)).
Proof.
  intros H. unfold build_calendar. rewrite H.
  destruct sd as [d|]; reflexivity.
Qed.

Lemma build_calendar_days (plan_text : str) (sd : option datetime)
      (clk : clock) (n : nat) :
  findall day_pattern plan_text <> [] ->
  date_valid (date_of (effective_start sd clk n)) ->
  build_calendar plan_text sd clk n =
  match first_failing (effective_start sd clk n)
                           (findall day_pattern plan_text) with
  | Some day => Raise (day_error day)
  | None =>
      Ok (mkCalendar PRODID VERSION
            (day_events (effective_start sd clk n) clk (after_start sd n)
                        (findall day_pattern plan_text)),
          length (findall day_pattern plan_text) + after_start sd n)
  end.
Proof.
  intros Hne Hv. unfold build_calendar.
  pose proof (findall_int plan_text) as Hint.
  destruct (findall day_pattern plan_text) as [|day days] eqn:E;
    [congruence|].
  destruct sd as [d|]; cbn [effective_start after_start] in *.
  - unfold bind at 1. unfold ret at 1.
    now rewrite for_each_add_day by assumption.
  - unfold bind at 1. unfold today, now at 1.
    now rewrite for_each_add_day by assumption.
Qed.

(** ** Where the markers are *)

Lemma marker_at_nil : marker_at [] = false.
Proof. reflexivity. Qed.

Lemma marker_free_spec (n : nat) (s : str) :
  marker_free n s = true <->
  (forall i, i < n -> marker_at (skipn i s) = false).
Proof.
  revert s; induction n as [|n IH]; intros s; simpl.
  - split; [intros _ i Hi; lia | reflexivity].
  - destruct s as [|c s].
    + split; [|reflexivity]. intros _ i _. now rewrite skipn_nil.
    + rewrite andb_true_iff, negb_true_iff, IH. split.
      * intros [H0 Hs] [|i] Hi; [exact H0|]. apply Hs. lia.
      * intros H. split; [exact (H 0 ltac:(lia))|].
        intros i Hi. apply (H (S i)). lia.
Qed.

(** A run of characters other than the letter D holds no marker. *)
Lemma marker_free_run (a s : str) (n : nat) :
  Forall (fun c => c <> 68%N) a ->
  marker_free n s = true ->
  marker_free (length a + n) (a ++ s) = true.
Proof.
  induction 1 as [|c a Hc _ IH]; intros Hn; [exact Hn|].
  cbn [length Nat.add app marker_free].
  rewrite (IH Hn), andb_true_r, negb_true_iff.
  apply not_true_is_false. intros E.
  apply marker_at_D in E. destruct E as [t [= -> _]]. congruence.
Qed.

Lemma digit_not_D (c : char) : isdecimal c = true -> c <> 68%N.
Proof. intros H ->. unfold isdecimal in H. now rewrite D_class in H. Qed.

Lemma sep_not_D (c : char) : is_sep c = true -> c <> 68%N.
Proof.
  intros H ->. unfold is_sep, isspace in H. rewrite D_class in H.
  discriminate.
Qed.

(** No marker starts inside the content of a segment. *)
Lemma marker_free_content (s : str) :
  marker_free (length (fst (content_split s))) s = true.
Proof.
  apply marker_free_spec. intros i Hi.
  apply content_split_minimal in Hi.
  apply not_true_is_false. intros E.
  apply marker_at_day_digit in E. unfold lookahead in Hi.
  rewrite E in Hi. discriminate.
Qed.

(** No marker starts inside a segment, after its first character. *)
Lemma marker_free_segment (c : char) (s ds content rest : str) :
  day_match (c :: s) = Some (ds, content, rest) ->
  marker_free (pred (length (c :: s) - length rest)) s = true.
Proof.
  intros H. destruct (day_match_inv _ H) as (seps & Hs & _ & Hd & _ & Hp & Hc).
  rewrite Day_chars in Hs.
  assert (Hs' : s = ([97; 121; 32]%N ++ ds ++ seps) ++ content ++ rest).
  { cbn [app] in Hs. injection Hs as _ ->. cbn [app].
    now rewrite <- !app_assoc. }
  assert (Hn : pred (length (c :: s) - length rest) =
               length ([97; 121; 32]%N ++ ds ++ seps) + length content).
  { rewrite Hs'. cbn [length]. rewrite !length_app. lia. }
  rewrite Hn, Hs'.
  apply marker_free_run.
  - apply Forall_app. split; [repeat constructor; discriminate|].
    apply Forall_app. split.
    + eapply Forall_impl; [|exact Hd]. apply digit_not_D.
    + eapply Forall_impl; [|exact Hp]. apply sep_not_D.
  - pose proof (marker_free_content (content ++ rest)) as Hf.
    now rewrite Hc in Hf.
Qed.

Lemma marker_positions_free (n : nat) (s : str) (pos : nat) :
  n <= length s -> marker_free n s = true ->
  marker_positions s pos = marker_positions (skipn n s) (pos + n).
Proof.
  revert s pos; induction n as [|n IH]; intros s pos Hn Hf.
  - now rewrite Nat.add_0_r.
  - destruct s as [|c s]; [simpl in Hn; lia|].
    cbn [marker_free] in Hf. apply andb_true_iff in Hf as [H0 Hf].
    apply negb_true_iff in H0. cbn [marker_positions skipn]. rewrite H0.
    rewrite IH by (simpl in Hn; lia || assumption). f_equal. lia.
Qed.

(** Every match starts at a marker, and every marker starts a match. *)
Lemma finditer_starts (s : str) (pos : nat) :
  map m_start (finditer_from day_pattern s pos 0) = marker_positions s pos.
Proof.
  revert pos.
  induction s as [|c s Hnone IH|s ds content rest Hm IH] using segment_ind;
    intros pos; rewrite finditer_day_pattern.
  - reflexivity.
  - rewrite Hnone. cbn [marker_positions].
    rewrite marker_at_day_match, Hnone. apply IH.
  - rewrite Hm. cbn [map m_start]. rewrite IH.
    pose proof (day_match_shorter _ Hm) as Hlen.
    destruct s as [|c s]; [simpl in Hlen; lia|].
    cbn [marker_positions]. rewrite marker_at_day_match, Hm. f_equal.
    pose proof Hm as Hf. apply marker_free_segment in Hf.
    destruct (day_match_inv _ Hm) as (seps & Hs & _).
    assert (Hpre : exists pre, c :: s = (c :: pre) ++ rest).
    { rewrite Day_chars in Hs. cbn [app] in Hs. injection Hs as -> ->.
      exists ([97; 121; 32]%N ++ ds ++ seps ++ content).
      cbn [app]. now rewrite <- !app_assoc. }
    destruct Hpre as [pre Hpre].
    assert (Hn : length (c :: s) - length rest = S (length pre))
      by (rewrite Hpre, length_app; cbn [length]; lia).
    rewrite Hn in *. cbn [pred] in Hf.
    injection Hpre as ->.
    rewrite marker_positions_free with (n := length pre) (s := pre ++ rest);
      [|rewrite length_app; lia | exact Hf].
    rewrite skipn_app, skipn_all, Nat.sub_diag. cbn [skipn app].
    f_equal. lia.
Qed.



(** ** Markers and the result of [findall] *)

Lemma findall_no_marker (s : str) :
  has_day_marker s = false -> findall day_pattern s = [].
Proof.
  induction s as [|c s IH]; intros H; rewrite findall_day_pattern.
  - now destruct (day_match []) as [[[? ?] ?]|] eqn:E;
      [apply day_match_shorter in E; simpl in E; lia|].
  - cbn [has_day_marker] in H. apply orb_false_iff in H as [H0 Hs].
    rewrite marker_at_day_match in H0.
    destruct (day_match (c :: s)); [discriminate | now apply IH].
Qed.

Lemma findall_marker (s : str) :
  marker_at s = true -> findall day_pattern s <> [].
Proof.
  intros H. rewrite findall_day_pattern. rewrite marker_at_day_match in H.
  destruct (day_match s) as [[[ds content] rest]|]; [|discriminate].
  discriminate.
Qed.

Lemma findall_some_marker (s : str) :
  has_day_marker s = true -> findall day_pattern s <> [].
Proof.
  induction s as [|c s IH]; intros H; [discriminate|].
  destruct (marker_at (c :: s)) eqn:E; [now apply findall_marker|].
  cbn [has_day_marker] in H. rewrite E in H. cbn [orb] in H.
  rewrite findall_day_pattern. rewrite marker_at_day_match in E.
  destruct (day_match (c :: s)); [discriminate | now apply IH].
Qed.

(** Text before the first marker does not show in the result. *)
Lemma findall_preamble (pre body : str) :
  marker_free (length pre) (pre ++ body) = true ->
  findall day_pattern (pre ++ body) = findall day_pattern body.
Proof.
  induction pre as [|c pre IH]; intros H; [reflexivity|].
  cbn [length marker_free app] in H. apply andb_true_iff in H as [H0 Hs].
  apply negb_true_iff in H0. rewrite marker_at_day_match in H0.
  rewrite findall_day_pattern. cbn [app].
  destruct (day_match (c :: pre ++ body)); [discriminate | now apply IH].
Qed.

(** ** [str.strip] *)

Lemma lstrip_spec (s : str) :
  exists l, s = l ++ lstrip s /\ all_space l.
Proof.
  induction s as [|c s (l & Hs & Hl)]; [now exists []; split; [|constructor]|].
  cbn [lstrip]. destruct (isspace c) eqn:E.
  - exists (c :: l). split; [cbn [app]; now f_equal | now constructor].
  - exists []. split; [reflexivity | constructor].
Qed.

Lemma lstrip_head (s : str) (c : char) (t : str) :
  lstrip s = c :: t -> isspace c = false.
Proof.
  induction s as [|d s IH]; [discriminate|]. cbn [lstrip].
  destruct (isspace d) eqn:E; [exact IH|]. now intros [= <- _].
Qed.

Lemma rstrip_spec (s : str) :
  exists r, s = rstrip s ++ r /\ all_space r.
Proof.
  unfold rstrip. destruct (lstrip_spec (rev s)) as (l & Hs & Hl).
  exists (rev l). split.
  - rewrite <- rev_app_distr, <- Hs. now rewrite rev_involutive.
  - now apply Forall_rev.
Qed.

Lemma rstrip_last (s t : str) (c : char) :
  rstrip s = t ++ [c] -> isspace c = false.
Proof.
  unfold rstrip. intros H.
  apply (f_equal (@rev char)) in H.
  rewrite rev_involutive, rev_app_distr in H. cbn [rev app] in H.
  eapply lstrip_head; exact H.
Qed.

(** [strip] removes white space at both ends and nothing else. *)
Lemma strip_spec (s : str) :
  exists l r,
    s = l ++ strip s ++ r /\ all_space l /\ all_space r /\
    (forall c t, strip s = c :: t -> isspace c = false) /\
    (forall t c, strip s = t ++ [c] -> isspace c = false).
Proof.
  unfold strip.
  destruct (lstrip_spec s) as (l & Hs & Hl).
  destruct (rstrip_spec (lstrip s)) as (r & Hr & Har).
  exists l, r. repeat split; try assumption.
  - now rewrite <- Hr.
  - intros c t H. rewrite H in Hr. cbn [app] in Hr.
    eapply lstrip_head; exact Hr.
  - intros t c H. eapply rstrip_last; exact H.
Qed.

(** ** Each match and the text around it *)

Lemma finditer_In (s : str) (pos : nat) (m : Match) :
  In m (finditer_from day_pattern s pos 0) ->
  exists pre t ds content rest,
    s = pre ++ t /\
    day_match t = Some (ds, content, rest) /\
    m = mkMatch (pos + length pre)
                (pos + length pre + (length t - length rest))
                [(2, content); (1, ds)].
Proof.
  revert pos.
  induction s as [|c s Hnone IH|s ds content rest Hm IH] using segment_ind;
    intros pos; rewrite finditer_day_pattern.
  - destruct (day_match []) as [[[? ?] ?]|] eqn:E;
      [apply day_match_shorter in E; simpl in E; lia | intros []].
  - rewrite Hnone. intros H.
    destruct (IH _ H) as (pre & t & ds & content & rest & -> & Ht & ->).
    exists (c :: pre), t, ds, content, rest.
    repeat split; [exact Ht|]. cbn [length]. f_equal; lia.
  - rewrite Hm. intros [<- | H].
    + exists [], s, ds, content, rest.
      repeat split; [exact Hm|]. cbn [length]. f_equal; lia.
    + destruct (IH _ H) as (pre & t & ds' & content' & rest' & Hr & Ht & ->).
      destruct (day_match_inv _ Hm) as (seps & Hs & _).
      exists (u "Day " ++ ds ++ seps ++ content ++ pre), t, ds', content', rest'.
      assert (Hlen : length s - length rest =
                     length (u "Day " ++ ds ++ seps ++ content))
        by (rewrite Hs, !length_app; lia).
      repeat split; [|exact Ht|].
      * rewrite Hs, Hr. now rewrite <- !app_assoc.
      * rewrite Hlen. f_equal; rewrite !length_app; lia.
Qed.

Lemma day_digit_ahead_here (d : char) (x : str) :
  day_digit_ahead (u "Day " ++ d :: x) = isdecimal d.
Proof. unfold day_digit_ahead. now rewrite strip_prefix_self. Qed.

Lemma day_digit_ahead_short (s : str) :
  length s <= 4 -> day_digit_ahead s = false.
Proof.
  intros H. unfold day_digit_ahead.
  destruct (strip_prefix (u "Day ") s) as [t|] eqn:E; [|reflexivity].
  apply strip_prefix_app in E. subst s.
  rewrite length_app, Day_chars in H. cbn [length] in H.
  destruct t; [reflexivity | cbn [length] in H; lia].
Qed.

(** After the place where [$] holds no "Day " and digit can follow. *)
Lemma at_end_no_day (s : str) (j : nat) :
  at_end s = true -> day_digit_ahead (skipn j s) = false.
Proof.
  intros H. apply day_digit_ahead_short.
  rewrite length_skipn.
  destruct s as [|c [|d s]];
    [cbn [length]; lia | cbn [length]; lia | discriminate].
Qed.

(** ** The events of the loop *)

Lemma day_events_length (sd : datetime) (clk : clock) (n : nat)
      (days : list (str * str)) :
  length (day_events sd clk n days) = length days.
Proof.
  revert n; induction days as [|day days IH]; intros n; [reflexivity|].
  cbn [day_events length]. now rewrite IH.
Qed.





Lemma first_failing_none (sd : datetime) (days : list (str * str)) :
  first_failing sd days = None <->
  forallb (day_ok sd) days = true.
Proof.
  unfold first_failing. induction days as [|day days IH];
    [now split|].
  cbn [find forallb]. destruct (day_ok sd day); cbn [negb andb].
  - exact IH.
  - split; discriminate.
Qed.


(** ** The converter, case by case *)

Lemma generate_build (plan_text : str) (sd : option datetime)
      (clk : clock) (n : nat) :
  generate_ics_content plan_text sd clk n =
  match build_calendar plan_text sd clk n with
  | Ok (cal, n') => Ok (to_ical cal, n')
  | Raise e => Raise e
  end.
Proof.
  unfold generate_ics_content, bind, ret.
  now destruct (build_calendar plan_text sd clk n) as [[cal n']|e].
Qed.

Lemma build_calendar_cases (plan_text : str) (sd : option datetime)
      (clk : clock) (n : nat) :
  date_valid (date_of (effective_start sd clk n)) ->
  build_calendar plan_text sd clk n =
  match findall day_pattern plan_text with
  | [] =>
      Ok (mkCalendar PRODID VERSION
            [fallback_event plan_text (effective_start sd clk n)
                            (clk (after_start sd n))],
          S (after_start sd n))
  | _ :: _ =>
      match first_failing (effective_start sd clk n)
                               (findall day_pattern plan_text) with
      | Some day => Raise (day_error day)
      | None =>
          Ok (mkCalendar PRODID VERSION
                (day_events (effective_start sd clk n) clk (after_start sd n)
                            (findall day_pattern plan_text)),
              length (findall day_pattern plan_text) + after_start sd n)
      end
  end.
Proof.
  intros Hv.
  destruct (findall day_pattern plan_text) as [|day days] eqn:E.
  - now apply build_calendar_fallback.
  - rewrite <- E. apply build_calendar_days; [|exact Hv].
    rewrite E. discriminate.
Qed.

Lemma day_events_single_day (sd : datetime) (clk : clock) (n : nat)
      (days : list (str * str)) :
  Forall (fun ev => dtstart ev = dtend ev) (day_events sd clk n days).
Proof.
  revert n; induction days as [|day days IH]; intros n; constructor.
  - reflexivity.
  - apply IH.
Qed.

Lemma has_day_marker_findall (s : str) :
  has_day_marker s = false <-> findall day_pattern s = [].
Proof.
  split; [apply findall_no_marker|].
  intros H. destruct (has_day_marker s) eqn:E; [|reflexivity].
  now apply findall_some_marker in E.
Qed.

(** What [marker_at] and [has_day_marker] say about the text itself. *)
Lemma marker_at_spec (s : str) :
  marker_at s = true <->
  exists ds c rest,
    s = u "Day " ++ ds ++ c :: rest /\
    ds <> [] /\ Forall (fun d => isdecimal d = true) ds /\ is_sep c = true.
Proof.
  unfold marker_at. split.
  - destruct (strip_prefix (u "Day ") s) as [s1|] eqn:Ep; [|discriminate].
    apply strip_prefix_app in Ep.
    pose proof (span_app isdecimal s1) as Happ.
    pose proof (span_all isdecimal s1) as Hall.
    destruct (span isdecimal s1) as [ds s2]; simpl in Happ, Hall.
    destruct ds as [|d ds]; [discriminate|].
    destruct s2 as [|c rest]; [discriminate|]. intros Hc.
    exists (d :: ds), c, rest. subst s1.
    repeat split; [exact Ep | discriminate | exact Hall | exact Hc].
  - intros (ds & c & rest & -> & Hne & Hd & Hc).
    rewrite strip_prefix_self.
    rewrite span_exact by (exact Hd || (apply sep_not_digit; exact Hc)).
    destruct ds; [congruence | exact Hc].
Qed.

Lemma has_day_marker_spec (s : str) :
  has_day_marker s = true <->
  exists pre ds c rest,
    s = pre ++ u "Day " ++ ds ++ c :: rest /\
    ds <> [] /\ Forall (fun d => isdecimal d = true) ds /\ is_sep c = true.
Proof.
  split.
  - induction s as [|x s IH]; [discriminate|].
    cbn [has_day_marker]. intros H. apply orb_true_iff in H as [H|H].
    + apply marker_at_spec in H as (ds & c & rest & Hs & Hrest).
      exists [], ds, c, rest. now split.
    + destruct (IH H) as (pre & ds & c & rest & -> & Hrest).
      exists (x :: pre), ds, c, rest. now split.
  - intros (pre & ds & c & rest & -> & Hrest).
    assert (Hm : marker_at (u "Day " ++ ds ++ c :: rest) = true)
      by (apply marker_at_spec; now exists ds, c, rest).
    clear Hrest. induction pre as [|x pre IH].
    + cbn [app]. rewrite Day_chars in *. cbn [app has_day_marker] in *.
      now rewrite Hm.
    + cbn [app has_day_marker]. rewrite IH. apply orb_true_r.
Qed.

(** ** Running the converter on a given text *)

Lemma over_digit_limit_short (ds : str) :
  length ds <= 1 -> over_digit_limit ds = false.
Proof.
  intros H. unfold over_digit_limit.
  destruct int_max_str_digits as [|k]; [reflexivity|].
  apply andb_false_iff. right. apply Nat.ltb_ge. lia.
Qed.

Lemma day_ok_short (sd : datetime) (day : str * str) :
  length (fst day) <= 1 -> day_ok sd day = day_in_range sd day.
Proof.
  intros H. unfold day_ok. now rewrite over_digit_limit_short.
Qed.

(** When the loop gets through every day, the calendar holds their
    events, in order. *)
Lemma build_calendar_ok (plan_text : str) (sd : option datetime)
      (clk : clock) (n : nat) (days : list (str * str)) :
  findall day_pattern plan_text = days ->
  days <> [] ->
  date_valid (date_of (effective_start sd clk n)) ->
  forallb (day_ok (effective_start sd clk n)) days = true ->
  build_calendar plan_text sd clk n =
  Ok (mkCalendar PRODID VERSION
        (day_events (effective_start sd clk n) clk (after_start sd n) days),
      length days + after_start sd n).
Proof.
  intros <- Hne Hv Hok. rewrite build_calendar_cases by exact Hv.
  apply first_failing_none in Hok. rewrite Hok.
  now destruct (findall day_pattern plan_text).
Qed.

(** ** Properties of the converter *)

(** A run on a given text with the [pairs] that [findall] extracts
    from it, all of them with a one-digit day number. *)
Ltac run_on pairs :=
  rewrite generate_build;
  rewrite build_calendar_ok with (days := pairs);
  [ vm_compute; reflexivity
  | vm_compute; reflexivity
  | discriminate
  | valid_date
  | cbn [forallb]; rewrite !day_ok_short by (cbn; lia);
    vm_compute; reflexivity ].

(** C1: for the text "Day 1: Visit museum\nDay 2: Beach" and the start
    date 2024-01-01 the converter returns a calendar with exactly two
    events: the first dated 2024-01-01 and described "Visit museum", the
    second dated 2024-01-02 and described "Beach". *)
Theorem C1_two_day_example (t : time) (clk : clock) (n : nat) :
  generate_ics_content (u "Day 1: Visit museum" ++ LF :: u "Day 2: Beach")
                       (Some (mkdatetime (ymd 2024 1 1) t)) clk n =
  Ok (to_ical
        (mkCalendar PRODID VERSION
           [mkEvent (day_summary 1) (u "Visit museum")
                    (ymd 2024 1 1) (ymd 2024 1 1) (clk n);
            mkEvent (day_summary 2) (u "Beach")
                    (ymd 2024 1 2) (ymd 2024 1 2) (clk (S n))]),
      S (S n)).
Proof.
  run_on [(u "1", u "Visit museum" ++ [LF]); (u "2", u "Beach")].
Qed.




(** C4: every event of a calendar the converter returns starts and ends on
    the same date, on the fallback path and on the per-day path alike. *)
Theorem C4_events_are_single_day (plan_text : str) (sd : option datetime)
        (clk : clock) (n : nat) (out : list Byte.byte) (n' : nat) :
  date_valid (date_of (effective_start sd clk n)) ->
  generate_ics_content plan_text sd clk n = Ok (out, n') ->
  exists cal,
    build_calendar plan_text sd clk n = Ok (cal, n') /\
    out = to_ical cal /\
    subcomponents cal <> [] /\
    Forall (fun ev => dtstart ev = dtend ev) (subcomponents cal).
Proof.
  intros Hv. rewrite generate_build, build_calendar_cases by exact Hv.
  destruct (findall day_pattern plan_text) as [|day days] eqn:E.
  - intros [= <- <-]. eexists. split; [reflexivity|].
    split; [reflexivity|]. split; [discriminate|].
    now repeat constructor.
  - destruct (first_failing (effective_start sd clk n) (day :: days));
      [discriminate|].
    intros [= <- <-]. eexists. split; [reflexivity|].
    split; [reflexivity|]. cbn [subcomponents]. split.
    + cbn [day_events]. discriminate.
    + apply day_events_single_day.
Qed.



(** C7, as the code has it: on the per-day path the description of each
    event is the content of its segment with the white space at both ends
    removed and everything between kept; the description of the fallback
    event is the whole text, unchanged. *)
Theorem C7_descriptions (plan_text : str) (sd : option datetime)
        (clk : clock) (n : nat) (out : list Byte.byte) (n' : nat) :
  date_valid (date_of (effective_start sd clk n)) ->
  generate_ics_content plan_text sd clk n = Ok (out, n') ->
  (exists cal,
      build_calendar plan_text sd clk n = Ok (cal, n') /\
      out = to_ical cal /\
      map description (subcomponents cal) =
      match findall day_pattern plan_text with
      | [] => [plan_text]
      | days => map (fun day => strip (snd day)) days
      end) /\
  (forall content,
      exists l r,
        content = l ++ strip content ++ r /\
        all_space l /\ all_space r /\
        (forall c t, strip content = c :: t -> isspace c = false) /\
        (forall t c, strip content = t ++ [c] -> isspace c = false)).
Proof.
  intros Hv. rewrite generate_build, build_calendar_cases by exact Hv.
  intros H. split; [|apply strip_spec].
  destruct (findall day_pattern plan_text) as [|day days] eqn:E.
  - injection H as <- <-. eexists. now repeat split.
  - destruct (first_failing (effective_start sd clk n) (day :: days));
      [discriminate|].
    injection H as <- <-. eexists. split; [reflexivity|].
    split; [reflexivity|]. cbn [subcomponents].
    generalize (after_start sd n). generalize (day :: days).
    intros l; induction l as [|d l IH]; intros k; [reflexivity|].
    cbn [day_events map]. now rewrite IH.
Qed.



(** C9: in a text with a day marker, what precedes the first marker is
    dropped: the converter returns what it returns on the text from the
    first marker on. *)
Theorem C9_preamble_discarded (pre body : str) (sd : option datetime)
        (clk : clock) (n : nat) :
  marker_free (length pre) (pre ++ body) = true ->
  marker_at body = true ->
  generate_ics_content (pre ++ body) sd clk n =
  generate_ics_content body sd clk n.
Proof.
  intros Hf Hm. apply findall_preamble in Hf. apply findall_marker in Hm.
  unfold generate_ics_content, build_calendar. rewrite Hf.
  destruct (findall day_pattern body); [congruence | reflexivity].
Qed.

(** The content of a match ends just before the next "Day " and digit. *)
Lemma finditer_content (text : str) (m : Match) :
  In m (finditer day_pattern text) ->
  exists pre rest,
    text = pre ++ group_str 2 m ++ rest /\
    length pre + length (group_str 2 m) = m_end m /\
    (forall i, i < length (group_str 2 m) ->
               day_digit_ahead (skipn i (group_str 2 m ++ rest)) = false) /\
    (day_digit_ahead rest = true \/
     forall i, day_digit_ahead (skipn i (group_str 2 m ++ rest)) = false).
Proof.
  intros H. apply finditer_In in H.
  destruct H as (pre & t & ds & content & rest & -> & Ht & ->).
  destruct (day_match_inv _ Ht) as (seps & -> & _ & _ & _ & _ & Hc).
  change (group_str 2 (mkMatch _ _ [(2, content); (1, ds)])) with content.
  cbn [m_end].
  assert (Hmin : forall i, i < length content ->
                           day_digit_ahead (skipn i (content ++ rest)) = false).
  { intros i Hi.
    pose proof (@content_split_minimal (content ++ rest) i) as Hl.
    rewrite Hc in Hl. specialize (Hl Hi). unfold lookahead in Hl.
    now apply orb_false_iff in Hl. }
  exists (pre ++ u "Day " ++ ds ++ seps), rest. repeat split.
  - now rewrite <- !app_assoc.
  - rewrite !length_app. lia.
  - exact Hmin.
  - pose proof (content_split_stops (content ++ rest)) as Hs.
    rewrite Hc in Hs. cbn [snd] in Hs. unfold lookahead in Hs.
    apply orb_true_iff in Hs as [Hs|Hs]; [now left | right].
    intros i. destruct (Nat.lt_ge_cases i (length content)) as [Hi|Hi].
    + now apply Hmin.
    + rewrite skipn_app, skipn_all2 by exact Hi. cbn [app].
      now apply at_end_no_day.
Qed.

(** C10: a day marker is recognized wherever it stands, as the "Day 3:"
    of "D-Day 3:" is: the matches start exactly at the markers of the
    text.  The content of a segment ends just before the next "Day "
    followed by a digit, when there is one, so that no content holds
    "Day " followed by a digit. *)
Theorem C10_markers_anywhere :
  findall day_pattern (u "D-Day 3: x") = [(u "3", u "x")] /\
  (forall text : str,
      map m_start (finditer day_pattern text) = marker_positions text 0) /\
  (forall (text : str) (m : Match),
      In m (finditer day_pattern text) ->
      exists pre rest,
        text = pre ++ group_str 2 m ++ rest /\
        length pre + length (group_str 2 m) = m_end m /\
        (forall i, i < length (group_str 2 m) ->
                   day_digit_ahead (skipn i (group_str 2 m ++ rest)) = false) /\
        (day_digit_ahead rest = true \/
         forall i, day_digit_ahead (skipn i (group_str 2 m ++ rest)) = false)) /\
  (forall (text : str) (day : str * str) (d : char),
      In day (findall day_pattern text) ->
      isdecimal d = true ->
      ~ occurs_in (u "Day " ++ [d]) (snd day)).
Proof.
  split; [vm_compute; reflexivity|].
  split; [intros text; apply finditer_starts|].
  split; [apply finditer_content|].
  intros text day d Hin Hd (l & r & Hocc).
  unfold findall in Hin. apply in_map_iff in Hin as (m & <- & Hm).
  cbn [snd] in Hocc.
  destruct (finditer_content _ _ Hm) as (pre & rest & _ & _ & Hmin & _).
  specialize (Hmin (length l)). rewrite Hocc in Hmin.
  assert (Hskip : skipn (length l) ((l ++ (u "Day " ++ [d]) ++ r) ++ rest) =
                  u "Day " ++ d :: r ++ rest).
  { rewrite <- !app_assoc. rewrite skipn_app, skipn_all, Nat.sub_diag.
    reflexivity. }
  rewrite Hskip, day_digit_ahead_here, Hd in Hmin.
  enough (true = false) by discriminate. apply Hmin.
  rewrite !length_app. cbn [length]. lia.
Qed.

(** ** Further properties of the converter *)

(** *** Texts that cannot hold a marker *)




(** *** How many events, and what the calendar says of itself *)

Lemma findall_length (s : str) :
  length (findall day_pattern s) = length (marker_positions s 0).
Proof.
  unfold findall. rewrite length_map.
  rewrite <- (finditer_starts s 0). now rewrite length_map.
Qed.

(** A returned calendar carries the fixed product identifier and version
    and holds one event per day marker of the text, or one event when the
    text has no marker: it is never empty. *)
Theorem calendar_size_and_identity (plan_text : str) (sd : option datetime)
        (clk : clock) (n : nat) (out : list Byte.byte) (n' : nat) :
  date_valid (date_of (effective_start sd clk n)) ->
  generate_ics_content plan_text sd clk n = Ok (out, n') ->
  exists cal,
    build_calendar plan_text sd clk n = Ok (cal, n') /\
    out = to_ical cal /\
    prodid cal = u "-//AI Travel Planner//github.com//" /\
    version cal = u "2.0" /\
    length (subcomponents cal) =
    Nat.max 1 (length (marker_positions plan_text 0)).
Proof.
  intros Hv. rewrite generate_build, build_calendar_cases by exact Hv.
  rewrite <- findall_length.
  destruct (findall day_pattern plan_text) as [|day days] eqn:E.
  - intros [= <- <-]. eexists. now repeat split.
  - destruct (first_failing (effective_start sd clk n) (day :: days));
      [discriminate|].
    intros [= <- <-]. eexists. split; [reflexivity|].
    split; [reflexivity|]. split; [reflexivity|]. split; [reflexivity|].
    cbn [subcomponents]. rewrite day_events_length. cbn [length]. lia.
Qed.

(** *** The clock *)

Lemma day_events_stamps (sd : datetime) (clk : clock) (n : nat)
      (days : list (str * str)) :
  map dtstamp (day_events sd clk n days) = map clk (seq n (length days)).
Proof.
  revert n; induction days as [|day days IH]; intros n; [reflexivity|].
  cbn [day_events map length seq]. now rewrite IH.
Qed.

(** A run that returns reads the clock once for the start date, when it
    is omitted, and then once per event, in order: the stamps of the
    events are those readings, one after the other. *)
Theorem clock_read_once_per_event (plan_text : str) (sd : option datetime)
        (clk : clock) (n : nat) (out : list Byte.byte) (n' : nat) :
  date_valid (date_of (effective_start sd clk n)) ->
  generate_ics_content plan_text sd clk n = Ok (out, n') ->
  exists cal,
    build_calendar plan_text sd clk n = Ok (cal, n') /\
    n' = length (subcomponents cal) + after_start sd n /\
    map dtstamp (subcomponents cal) =
    map clk (seq (after_start sd n) (length (subcomponents cal))).
Proof.
  intros Hv. rewrite generate_build, build_calendar_cases by exact Hv.
  destruct (findall day_pattern plan_text) as [|day days] eqn:E.
  - intros [= <- <-]. eexists. now repeat split.
  - destruct (first_failing (effective_start sd clk n) (day :: days));
      [discriminate|].
    intros [= <- <-]. eexists. split; [reflexivity|].
    cbn [subcomponents]. rewrite day_events_length.
    split; [reflexivity | apply day_events_stamps].
Qed.

(** *** The time of day of the start date *)

Lemma day_ordinal_date (d1 d2 : datetime) (day : str * str) :
  date_of d1 = date_of d2 -> day_ordinal d1 day = day_ordinal d2 day.
Proof. unfold day_ordinal. now intros ->. Qed.

Lemma day_ok_date (d1 d2 : datetime) (day : str * str) :
  date_of d1 = date_of d2 -> day_ok d1 day = day_ok d2 day.
Proof.
  intros H. unfold day_ok, day_in_range.
  now rewrite (@day_ordinal_date d1 d2 day H).
Qed.

Lemma first_failing_date (d1 d2 : datetime) (days : list (str * str)) :
  date_of d1 = date_of d2 -> first_failing d1 days = first_failing d2 days.
Proof.
  intros H. unfold first_failing. induction days as [|day days IH];
    [reflexivity|].
  cbn [find]. now rewrite (@day_ok_date d1 d2 day H), IH.
Qed.

Lemma day_events_date (d1 d2 : datetime) (clk : clock) (n : nat)
      (days : list (str * str)) :
  date_of d1 = date_of d2 -> day_events d1 clk n days = day_events d2 clk n days.
Proof.
  intros H. revert n; induction days as [|day days IH]; intros n;
    [reflexivity|].
  cbn [day_events]. unfold day_event.
  now rewrite (@day_ordinal_date d1 d2 day H), IH.
Qed.

(** Only the date of the start date counts: two start dates on the same
    day, at whatever time, give the same result, bytes or exception. *)
Theorem time_of_day_is_ignored (plan_text : str) (d1 d2 : datetime)
        (clk : clock) (n : nat) :
  date_valid (date_of d1) ->
  date_of d1 = date_of d2 ->
  generate_ics_content plan_text (Some d1) clk n =
  generate_ics_content plan_text (Some d2) clk n.
Proof.
  intros Hv H. rewrite !generate_build.
  rewrite (build_calendar_cases plan_text (Some d1) clk n) by exact Hv.
  rewrite (build_calendar_cases plan_text (Some d2) clk n)
    by (cbn [effective_start] in *; now rewrite <- H).
  cbn [effective_start after_start].
  rewrite (@first_failing_date d1 d2 _ H), (@day_events_date d1 d2 clk _ _ H).
  unfold fallback_event. now rewrite H.
Qed.

(** *** The descriptions and the text *)

Lemma occurs_in_refl (s : str) : occurs_in s s.
Proof. exists [], []. now rewrite app_nil_r. Qed.

Lemma occurs_in_trans (a b c : str) :
  occurs_in a b -> occurs_in b c -> occurs_in a c.
Proof.
  intros (l1 & r1 & ->) (l2 & r2 & ->).
  exists (l2 ++ l1), (r1 ++ r2). now rewrite <- !app_assoc.
Qed.

Lemma strip_occurs (s : str) : occurs_in (strip s) s.
Proof.
  destruct (strip_spec s) as (l & r & H & _). now exists l, r.
Qed.

Lemma findall_In (text : str) (day : str * str) :
  In day (findall day_pattern text) ->
  exists pre t rest,
    text = pre ++ t /\ day_match t = Some (fst day, snd day, rest).
Proof.
  unfold findall. intros H. apply in_map_iff in H as (m & <- & Hm).
  apply finditer_In in Hm.
  destruct Hm as (pre & t & ds & content & rest & -> & Ht & ->).
  now exists pre, t, rest.
Qed.

Lemma findall_content_occurs (text : str) (day : str * str) :
  In day (findall day_pattern text) -> occurs_in (snd day) text.
Proof.
  intros H. apply findall_In in H as (pre & t & rest & -> & Ht).
  destruct (day_match_inv _ Ht) as (seps & -> & _).
  exists (pre ++ u "Day " ++ fst day ++ seps), rest.
  now rewrite <- !app_assoc.
Qed.

(** What holds of the stripped content of every day holds of the
    description of every event of the loop. *)
Lemma day_events_descriptions (Q : str -> Prop) (sd : datetime) (clk : clock)
      (n : nat) (days : list (str * str)) :
  Forall (fun day => Q (strip (snd day))) days ->
  Forall (fun ev => Q (description ev)) (day_events sd clk n days).
Proof.
  intros H. revert n; induction H as [|day days Hd _ IH]; intros n;
    constructor; [exact Hd | apply IH].
Qed.

(** The converter writes no text of its own into a description: every
    description of a returned calendar is a passage of the input text. *)
Theorem descriptions_occur_in_text (plan_text : str) (sd : option datetime)
        (clk : clock) (n : nat) (out : list Byte.byte) (n' : nat) :
  date_valid (date_of (effective_start sd clk n)) ->
  generate_ics_content plan_text sd clk n = Ok (out, n') ->
  exists cal,
    build_calendar plan_text sd clk n = Ok (cal, n') /\
    out = to_ical cal /\
    Forall (fun ev => occurs_in (description ev) plan_text)
           (subcomponents cal).
Proof.
  intros Hv. rewrite generate_build, build_calendar_cases by exact Hv.
  destruct (findall day_pattern plan_text) as [|day days] eqn:E.
  - intros [= <- <-]. eexists. split; [reflexivity|].
    split; [reflexivity|]. repeat constructor. apply occurs_in_refl.
  - destruct (first_failing (effective_start sd clk n) (day :: days));
      [discriminate|].
    intros [= <- <-]. eexists. split; [reflexivity|].
    split; [reflexivity|]. cbn [subcomponents].
    apply day_events_descriptions with (Q := fun d => occurs_in d plan_text).
    rewrite <- E. apply Forall_forall. intros d Hd.
    eapply occurs_in_trans; [apply strip_occurs|].
    now apply findall_content_occurs.
Qed.

(** The content of a segment does not start with a separator: the run of
    colons and white space after the digits is taken whole. *)
Lemma day_match_content_head (s ds content rest : str) (x : char) (t : str) :
  day_match s = Some (ds, content, rest) ->
  content = x :: t -> is_sep x = false.
Proof.
  unfold day_match.
  destruct (strip_prefix (u "Day ") s) as [s1|]; [|discriminate].
  destruct (span isdecimal s1) as [ds' s2].
  pose proof (@span_stops is_sep s2) as Hstop.
  destruct (span is_sep s2) as [seps s3]; cbn [snd] in Hstop.
  destruct ds' as [|d ds']; [discriminate|].
  destruct seps as [|c seps]; [discriminate|].
  pose proof (content_split_app s3) as Happ.
  destruct (content_split s3) as [a b]; cbn [fst snd] in Happ.
  intros [= <- <- <-] ->. eapply Hstop. symmetry. exact Happ.
Qed.

Lemma strip_head (content : str) (x : char) (t : str) :
  (forall y t', content = y :: t' -> is_sep y = false) ->
  strip content = x :: t -> is_sep x = false.
Proof.
  intros Hhead Hs.
  destruct (strip_spec content) as (l & r & Hc & Hl & _).
  rewrite Hs in Hc. destruct l as [|z l].
  - eapply Hhead. exact Hc.
  - exfalso. apply Forall_inv in Hl.
    specialize (Hhead z _ Hc). unfold is_sep in Hhead.
    rewrite Hl in Hhead. now rewrite orb_true_r in Hhead.
Qed.

(** On the per-day path no description starts with a colon or with white
    space, however many of them follow the day number. *)
Theorem descriptions_start_after_separators (plan_text : str)
        (sd : option datetime) (clk : clock) (n : nat)
        (out : list Byte.byte) (n' : nat) :
  date_valid (date_of (effective_start sd clk n)) ->
  has_day_marker plan_text = true ->
  generate_ics_content plan_text sd clk n = Ok (out, n') ->
  exists cal,
    build_calendar plan_text sd clk n = Ok (cal, n') /\
    out = to_ical cal /\
    Forall (fun ev => forall x t, description ev = x :: t -> is_sep x = false)
           (subcomponents cal).
Proof.
  intros Hv Hm. apply findall_some_marker in Hm.
  rewrite generate_build, build_calendar_cases by exact Hv.
  destruct (findall day_pattern plan_text) as [|day days] eqn:E;
    [congruence|].
  destruct (first_failing (effective_start sd clk n) (day :: days));
    [discriminate|].
  intros [= <- <-]. eexists. split; [reflexivity|].
  split; [reflexivity|]. cbn [subcomponents].
  apply day_events_descriptions
    with (Q := fun d => forall x t, d = x :: t -> is_sep x = false).
  rewrite <- E. apply Forall_forall. intros d Hd x t.
  apply strip_head. intros y t' Hy.
  apply findall_In in Hd as (pre & s & rest & _ & Hs).
  eapply day_match_content_head; [exact Hs | exact Hy].
Qed.

(** *** Day numbers are not negative *)

Lemma classify_nonnegative (c : char) (v : Z) :
  digit_values_nonnegative -> classify c = Decimal v -> (0 <= v)%Z.
Proof.
  intros Hu. unfold classify. destruct (c <? 128)%N; [|apply Hu].
  unfold ascii_class.
  destruct ((48 <=? c) && (c <=? 57))%N.
  - intros [= <-]. lia.
  - now destruct ((9 <=? c) && (c <=? 13) || (28 <=? c) && (c <=? 32))%N.
Qed.

Lemma int_digits_nonnegative (s : str) (acc n : Z) :
  digit_values_nonnegative -> (0 <= acc)%Z ->
  int_digits acc s = Ok n -> (0 <= n)%Z.
Proof.
  intros Hu. revert acc; induction s as [|c s IH]; intros acc Hacc; simpl.
  - now intros [= <-].
  - destruct (classify c) as [v| |] eqn:E; try discriminate.
    apply IH. pose proof (@classify_nonnegative c v Hu E). lia.
Qed.

Lemma day_number_nonnegative (day : str * str) :
  digit_values_nonnegative -> (0 <= day_number day)%Z.
Proof.
  intros Hu. unfold day_number.
  destruct (int_digits 0 (fst day)) as [n|e] eqn:E; [|lia].
  eapply int_digits_nonnegative; [exact Hu | | exact E]. lia.
Qed.

Lemma day_events_not_before (sd : datetime) (clk : clock) (n : nat)
      (days : list (str * str)) :
  digit_values_nonnegative ->
  Forall (fun ev => (toordinal (date_of sd) - 1 <= toordinal (dtstart ev))%Z)
         (day_events sd clk n days).
Proof.
  intros Hu. revert n; induction days as [|day days IH]; intros n;
    constructor; [|apply IH].
  cbn [day_event dtstart toordinal]. unfold day_ordinal.
  pose proof (@day_number_nonnegative day Hu). lia.
Qed.

(** Digits have no sign, so the smallest day number is 0: no event of a
    returned calendar is dated earlier than the day before the start
    date. *)
Theorem no_event_before_eve_of_start (plan_text : str) (sd : option datetime)
        (clk : clock) (n : nat) (out : list Byte.byte) (n' : nat) :
  digit_values_nonnegative ->
  date_valid (date_of (effective_start sd clk n)) ->
  generate_ics_content plan_text sd clk n = Ok (out, n') ->
  exists cal,
    build_calendar plan_text sd clk n = Ok (cal, n') /\
    out = to_ical cal /\
    Forall (fun ev =>
              (toordinal (date_of (effective_start sd clk n)) - 1
               <= toordinal (dtstart ev))%Z)
           (subcomponents cal).
Proof.
  intros Hu Hv. rewrite generate_build, build_calendar_cases by exact Hv.
  destruct (findall day_pattern plan_text) as [|day days] eqn:E.
  - intros [= <- <-]. eexists. split; [reflexivity|].
    split; [reflexivity|]. repeat constructor.
    cbn [fallback_event dtstart]. lia.
  - destruct (first_failing (effective_start sd clk n) (day :: days));
      [discriminate|].
    intros [= <- <-]. eexists. split; [reflexivity|].
    split; [reflexivity|]. now apply day_events_not_before.
Qed.

(** *** The number in the summary *)






(** *** How the matches lie in the text *)

Lemma finditer_bounds (s : str) (pos : nat) :
  Forall (fun m => pos <= m_start m /\
                   m_start m + 6 <= m_end m /\
                   m_end m <= pos + length s)
         (finditer_from day_pattern s pos 0).
Proof.
  revert pos.
  induction s as [|c s Hnone IH|s ds content rest Hm IH] using segment_ind;
    intros pos; rewrite finditer_day_pattern.
  - now destruct (day_match []) as [[[? ?] ?]|] eqn:E;
      [apply day_match_shorter in E; simpl in E; lia|].
  - rewrite Hnone. eapply Forall_impl; [|apply (IH (S pos))].
    intros m Hmm. cbn beta in Hmm. cbn [length]. lia.
  - rewrite Hm. pose proof (day_match_shorter _ Hm) as Hlen.
    constructor.
    + cbn [m_start m_end]. lia.
    + eapply Forall_impl; [|apply (IH (pos + (length s - length rest)))].
      intros m Hmm. cbn beta in Hmm. lia.
Qed.

(** After a segment the scan resumes in the text left after it. *)
Lemma day_match_rest (s ds content rest : str) :
  day_match s = Some (ds, content, rest) ->
  skipn (length s - length rest) s = rest /\ lookahead rest = true.
Proof.
  intros H. destruct (day_match_inv _ H) as (seps & Hs & _ & _ & _ & _ & Hc).
  split.
  - assert (Hp : exists pre, s = pre ++ rest)
      by (exists (u "Day " ++ ds ++ seps ++ content);
          now rewrite <- !app_assoc).
    destruct Hp as [pre ->].
    rewrite length_app, Nat.add_sub.
    now rewrite skipn_app, skipn_all, Nat.sub_diag.
  - pose proof (content_split_stops (content ++ rest)) as Hl.
    now rewrite Hc in Hl.
Qed.

Lemma finditer_adjacent (s : str) (pos : nat) (l1 : list Match)
      (m1 m2 : Match) (l2 : list Match) :
  finditer_from day_pattern s pos 0 = l1 ++ m1 :: m2 :: l2 ->
  m_end m1 <= m_start m2 /\
  day_digit_ahead (skipn (m_end m1 - pos) s) = true /\
  (m_end m1 < m_start m2 -> marker_at (skipn (m_end m1 - pos) s) = false).
Proof.
  revert pos l1.
  induction s as [|c s Hnone IH|s ds content rest Hm IH] using segment_ind;
    intros pos l1; rewrite finditer_day_pattern.
  - destruct (day_match []) as [[[? ?] ?]|] eqn:E;
      [apply day_match_shorter in E; simpl in E; lia|].
    now destruct l1.
  - rewrite Hnone. intros H.
    pose proof (finditer_bounds s (S pos)) as Hb. rewrite H in Hb.
    apply Forall_app in Hb as [_ Hb]. apply Forall_inv in Hb.
    cbn beta in Hb.
    replace (m_end m1 - pos) with (S (m_end m1 - S pos)) by lia.
    cbn [skipn]. exact (IH _ _ H).
  - rewrite Hm. intros H.
    destruct (day_match_rest _ Hm) as [Hskip Hlook].
    pose proof (day_match_shorter _ Hm) as Hlen.
    set (pos' := pos + (length s - length rest)) in *.
    pose proof (finditer_bounds rest pos') as Hb.
    destruct l1 as [|m0 l1]; cbn [app] in H; injection H as Hhead Htail.
    + subst m1. cbn [m_end]. fold pos'.
      replace (pos' - pos) with (length s - length rest) by (unfold pos'; lia).
      rewrite Hskip. rewrite Htail in Hb.
      pose proof (Forall_inv Hb) as Hb2. cbn beta in Hb2.
      split; [lia|]. split.
      * unfold lookahead in Hlook. apply orb_true_iff in Hlook as [Hd|He];
          [exact Hd|].
        exfalso. destruct rest as [|x [|y rest]]; cbn [length] in Hb2;
          [lia | lia | discriminate].
      * intros Hgap. apply not_true_is_false. intros Hmk.
        rewrite marker_at_day_match in Hmk.
        rewrite finditer_day_pattern in Htail.
        destruct (day_match rest) as [[[ds' c'] r']|]; [|discriminate].
        injection Htail as <- _. cbn [m_start] in Hgap. lia.
    + rewrite Htail in Hb. apply Forall_app in Hb as [_ Hb].
      apply Forall_inv in Hb. cbn beta in Hb.
      destruct (IH _ _ Htail) as (H1 & H2 & H3).
      assert (Hs : skipn (m_end m1 - pos) s = skipn (m_end m1 - pos') rest).
      { transitivity (skipn (m_end m1 - pos')
                              (skipn (length s - length rest) s));
          [|now rewrite Hskip].
        rewrite skipn_skipn. f_equal. unfold pos' in *. lia. }
      rewrite Hs. now repeat split.
Qed.

(** The matches lie one after the other in the text without overlapping,
    each at least six characters long.  The next match can start only
    where the last one ended or later, and it starts later only when the
    "Day " and digit that closed the last content is no marker (no colon
    or white space after the digits): the text from there to the next
    marker belongs to no segment. *)
Theorem matches_do_not_overlap (text : str) :
  Forall (fun m => m_start m + 6 <= m_end m /\ m_end m <= length text)
         (finditer day_pattern text) /\
  (forall l1 m1 m2 l2,
      finditer day_pattern text = l1 ++ m1 :: m2 :: l2 ->
      m_end m1 <= m_start m2 /\
      day_digit_ahead (skipn (m_end m1) text) = true /\
      (m_end m1 < m_start m2 -> marker_at (skipn (m_end m1) text) = false)).
Proof.
  split.
  - eapply Forall_impl; [|apply (finditer_bounds text 0)].
    intros m Hm. cbn beta in Hm. lia.
  - intros l1 m1 m2 l2 H. unfold finditer in H.
    apply finditer_adjacent in H. now rewrite Nat.sub_0_r in H.
Qed.

(** A text of fewer than six characters per event has fewer events: the
    number of day markers times six is at most the length of the text. *)
Lemma finditer_count (s : str) (pos : nat) :
  6 * length (finditer_from day_pattern s pos 0) <= length s.
Proof.
  revert pos.
  induction s as [|c s Hnone IH|s ds content rest Hm IH] using segment_ind;
    intros pos; rewrite finditer_day_pattern.
  - now destruct (day_match []) as [[[? ?] ?]|] eqn:E;
      [apply day_match_shorter in E; simpl in E; lia|].
  - rewrite Hnone. specialize (IH (S pos)). cbn [length]. lia.
  - rewrite Hm. pose proof (day_match_shorter _ Hm) as Hlen.
    specialize (IH (pos + (length s - length rest))). cbn [length]. lia.
Qed.

(** The events of a returned calendar are bounded by the length of the
    text: six characters at least go into each day marker. *)
Theorem events_bounded_by_length (plan_text : str) (sd : option datetime)
        (clk : clock) (n : nat) (out : list Byte.byte) (n' : nat) :
  date_valid (date_of (effective_start sd clk n)) ->
  generate_ics_content plan_text sd clk n = Ok (out, n') ->
  exists cal,
    build_calendar plan_text sd clk n = Ok (cal, n') /\
    out = to_ical cal /\
    6 * length (subcomponents cal) <= Nat.max 6 (length plan_text).
Proof.
  intros Hv. rewrite generate_build, build_calendar_cases by exact Hv.
  pose proof (finditer_count plan_text 0) as Hc.
  fold (finditer day_pattern plan_text) in Hc.
  assert (Hl : length (findall day_pattern plan_text) =
               length (finditer day_pattern plan_text))
    by (unfold findall; apply length_map).
  destruct (findall day_pattern plan_text) as [|day days] eqn:E.
  - intros [= <- <-]. eexists. split; [reflexivity|].
    split; [reflexivity|]. cbn [subcomponents length]. lia.
  - destruct (first_failing (effective_start sd clk n) (day :: days));
      [discriminate|].
    intros [= <- <-]. eexists. split; [reflexivity|].
    split; [reflexivity|]. cbn [subcomponents].
    rewrite day_events_length, Hl. lia.
Qed.

(** *** Joining two texts *)



















(** *** The download column *)


End TravelAgent.

(** ** The properties on sample inputs

    The samples run under [ascii_only], the default digit limit of 4300
    and [sample_to_ical]. *)



(** C4 at the two-day text of C1. *)
Lemma C4_witness :
  exists cal,
    build_calendar ascii_only 4300
      (u "Day 1: Visit museum" ++ LF :: u "Day 2: Beach")
      (Some new_year_2024) sample_clock 0 = Ok (cal, 2) /\
    sample_to_ical
      (mkCalendar PRODID VERSION
         [mkEvent (day_summary 1) (u "Visit museum")
                  (ymd 2024 1 1) (ymd 2024 1 1) (sample_clock 0);
          mkEvent (day_summary 2) (u "Beach")
                  (ymd 2024 1 2) (ymd 2024 1 2) (sample_clock 1)]) =
    sample_to_ical cal /\
    subcomponents cal <> [] /\
    Forall (fun ev => dtstart ev = dtend ev) (subcomponents cal).
Proof.
  apply (@C4_events_are_single_day ascii_only 4300 sample_to_ical
           (u "Day 1: Visit museum" ++ LF :: u "Day 2: Beach")
           (Some new_year_2024) sample_clock 0).
  - valid_date.
  - vm_compute; reflexivity.
Defined.



(** C7 at a segment whose content has white space at both ends and
    inside. *)
Lemma C7_witness :
  exists cal,
    build_calendar ascii_only 4300 (u "Day 1:   see  the   city  ")
                   (Some new_year_2024) sample_clock 0 = Ok (cal, 1) /\
    sample_to_ical
      (mkCalendar PRODID VERSION
         [mkEvent (day_summary 1) (u "see  the   city")
                  (ymd 2024 1 1) (ymd 2024 1 1) (sample_clock 0)]) =
    sample_to_ical cal /\
    map description (subcomponents cal) =
    match findall ascii_only day_pattern (u "Day 1:   see  the   city  ") with
    | [] => [u "Day 1:   see  the   city  "]
    | days => map (fun day => strip ascii_only (snd day)) days
    end.
Proof.
  refine (proj1
            (@C7_descriptions ascii_only 4300 sample_to_ical
               (u "Day 1:   see  the   city  ") (Some new_year_2024)
               sample_clock 0 _ 1 _ _)).
  - valid_date.
  - vm_compute; reflexivity.
Defined.


(** C9 at a text with a title line before the first day. *)
Lemma C9_witness :
  generate_ics_content ascii_only 4300 sample_to_ical
    ((u "Trip plan" ++ [LF]) ++ u "Day 1: a") (Some new_year_2024)
    sample_clock 0 =
  generate_ics_content ascii_only 4300 sample_to_ical
    (u "Day 1: a") (Some new_year_2024) sample_clock 0.
Proof.
  apply C9_preamble_discarded; reflexivity.
Defined.

(** C10 at the match inside "D-Day 3: x". *)
Lemma C10_witness :
  (exists pre rest,
      u "D-Day 3: x" =
      pre ++ group_str 2 (mkMatch 2 10 [(2, u "x"); (1, u "3")]) ++ rest /\
      length pre + length (group_str 2 (mkMatch 2 10 [(2, u "x"); (1, u "3")]))
      = m_end (mkMatch 2 10 [(2, u "x"); (1, u "3")]) /\
      (forall i,
          i < length (group_str 2 (mkMatch 2 10 [(2, u "x"); (1, u "3")])) ->
          day_digit_ahead ascii_only
            (skipn i (group_str 2 (mkMatch 2 10 [(2, u "x"); (1, u "3")])
                      ++ rest)) = false) /\
      (day_digit_ahead ascii_only rest = true \/
       forall i,
         day_digit_ahead ascii_only
           (skipn i (group_str 2 (mkMatch 2 10 [(2, u "x"); (1, u "3")])
                     ++ rest)) = false)) /\
  ~ occurs_in (u "Day " ++ [51%N]) (snd (u "3", u "x")).
Proof.
  destruct (C10_markers_anywhere ascii_only) as (_ & _ & Hcontent & Hno).
  split.
  - apply Hcontent. vm_compute. left. reflexivity.
  - apply (Hno (u "D-Day 3: x")); [|reflexivity].
    vm_compute. left. reflexivity.
Defined.

(** ** Where the code departs from its specification *)


(** C7 as stated fails on the fallback path: the description of the
    fallback event keeps the white space around the text. *)
Lemma C7_fallback_keeps_white_space :
  exists cal n',
    build_calendar ascii_only 4300 (u " hi ") None sample_clock 0 =
    Ok (cal, n') /\
    generate_ics_content ascii_only 4300 sample_to_ical (u " hi ") None
                         sample_clock 0 = Ok (sample_to_ical cal, n') /\
    exists ev,
      In ev (subcomponents cal) /\
      description ev = u " hi " /\
      description ev <> strip ascii_only (u " hi ").
Proof.
  eexists _, _. split; [vm_compute; reflexivity|].
  split; [vm_compute; reflexivity|].
  eexists. split; [left; reflexivity|].
  split; [reflexivity | vm_compute; discriminate].
Qed.

(** Under the digit limit a day number may fail in [int] although its
    date is within range: 4300 zeros before a 1 are one digit too many. *)
Example digit_limit_example :
  day_in_range ascii_only new_year_2024
               (repeat 48%N 4300 ++ u "1", u "x") = true /\
  generate_ics_content ascii_only 4300 sample_to_ical
    (u "Day " ++ repeat 48%N 4300 ++ u "1: x") (Some new_year_2024)
    sample_clock 0 = Raise (ValueError_too_many_digits 4301).
Proof. split; vm_compute; reflexivity. Qed.

(** ** The further properties on sample inputs *)


Lemma calendar_size_and_identity_witness :
  exists cal,
    build_calendar ascii_only 4300 two_days (Some new_year_2024)
                   sample_clock 0 = Ok (cal, 2) /\
    sample_to_ical two_days_calendar = sample_to_ical cal /\
    prodid cal = u "-//AI Travel Planner//github.com//" /\
    version cal = u "2.0" /\
    length (subcomponents cal) =
    Nat.max 1 (length (marker_positions ascii_only two_days 0)).
Proof.
  apply (@calendar_size_and_identity ascii_only 4300 sample_to_ical
           two_days (Some new_year_2024) sample_clock 0).
  - valid_date.
  - vm_compute; reflexivity.
Defined.

Lemma clock_read_once_per_event_witness :
  exists cal,
    build_calendar ascii_only 4300 two_days None sample_clock 3 =
    Ok (cal, 6) /\
    6 = length (subcomponents cal) + after_start None 3 /\
    map dtstamp (subcomponents cal) =
    map sample_clock (seq (after_start None 3) (length (subcomponents cal))).
Proof.
  apply (@clock_read_once_per_event ascii_only 4300 sample_to_ical
           two_days None sample_clock 3
           (sample_to_ical
              (mkCalendar PRODID VERSION
                 [mkEvent (day_summary 1) (u "Visit museum")
                          (ymd 2025 6 15) (ymd 2025 6 15) (sample_clock 4);
                  mkEvent (day_summary 2) (u "Beach")
                          (ymd 2025 6 16) (ymd 2025 6 16) (sample_clock 5)]))).
  - valid_date.
  - vm_compute; reflexivity.
Defined.

Lemma time_of_day_is_ignored_witness :
  generate_ics_content ascii_only 4300 sample_to_ical two_days
    (Some new_year_2024) sample_clock 0 =
  generate_ics_content ascii_only 4300 sample_to_ical two_days
    (Some (mkdatetime (ymd 2024 1 1) (mktime 23 59 59 999999)))
    sample_clock 0.
Proof.
  apply time_of_day_is_ignored; [valid_date | reflexivity].
Defined.

Lemma descriptions_occur_in_text_witness :
  exists cal,
    build_calendar ascii_only 4300 two_days (Some new_year_2024)
                   sample_clock 0 = Ok (cal, 2) /\
    sample_to_ical two_days_calendar = sample_to_ical cal /\
    Forall (fun ev => occurs_in (description ev) two_days)
           (subcomponents cal).
Proof.
  apply (@descriptions_occur_in_text ascii_only 4300 sample_to_ical
           two_days (Some new_year_2024) sample_clock 0).
  - valid_date.
  - vm_compute; reflexivity.
Defined.

Lemma descriptions_start_after_separators_witness :
  exists cal,
    build_calendar ascii_only 4300 (u "Day 1 :: : x") (Some new_year_2024)
                   sample_clock 0 = Ok (cal, 1) /\
    sample_to_ical
      (mkCalendar PRODID VERSION
         [mkEvent (day_summary 1) (u "x")
                  (ymd 2024 1 1) (ymd 2024 1 1) (sample_clock 0)]) =
    sample_to_ical cal /\
    Forall (fun ev =>
              forall x t, description ev = x :: t ->
                          is_sep ascii_only x = false)
           (subcomponents cal).
Proof.
  apply (@descriptions_start_after_separators ascii_only 4300 sample_to_ical
           (u "Day 1 :: : x") (Some new_year_2024) sample_clock 0).
  - valid_date.
  - reflexivity.
  - vm_compute; reflexivity.
Defined.

Lemma ascii_only_nonnegative : digit_values_nonnegative ascii_only.
Proof. intros c v H. discriminate H. Defined.

Lemma no_event_before_eve_of_start_witness :
  exists cal,
    build_calendar ascii_only 4300 (u "Day 0: pack" ++ LF :: u "Day 1: fly")
                   (Some new_year_2024) sample_clock 0 = Ok (cal, 2) /\
    sample_to_ical
      (mkCalendar PRODID VERSION
         [mkEvent (day_summary 0) (u "pack")
                  (ymd 2023 12 31) (ymd 2023 12 31) (sample_clock 0);
          mkEvent (day_summary 1) (u "fly")
                  (ymd 2024 1 1) (ymd 2024 1 1) (sample_clock 1)]) =
    sample_to_ical cal /\
    Forall (fun ev =>
              (toordinal (date_of (effective_start (Some new_year_2024)
                                                   sample_clock 0)) - 1
               <= toordinal (dtstart ev))%Z)
           (subcomponents cal).
Proof.
  apply (@no_event_before_eve_of_start ascii_only 4300 sample_to_ical
           (u "Day 0: pack" ++ LF :: u "Day 1: fly") (Some new_year_2024)
           sample_clock 0).
  - exact ascii_only_nonnegative.
  - valid_date.
  - vm_compute; reflexivity.
Defined.


(** In "Day 1: a Day 2b lost Day 3: c" the second "Day " and digit closes
    the first content without starting a segment: the matches are 0..9
    and 21..29, and what lies between is in neither. *)
Lemma matches_do_not_overlap_witness :
  9 <= 21 /\
  day_digit_ahead ascii_only
    (skipn 9 (u "Day 1: a Day 2b lost Day 3: c")) = true /\
  (9 < 21 ->
   marker_at ascii_only (skipn 9 (u "Day 1: a Day 2b lost Day 3: c")) = false).
Proof.
  apply (proj2 (matches_do_not_overlap ascii_only
                  (u "Day 1: a Day 2b lost Day 3: c"))
               []
               (mkMatch 0 9 [(2, u "a "); (1, u "1")])
               (mkMatch 21 29 [(2, u "c"); (1, u "3")])
               []).
  vm_compute; reflexivity.
Defined.

Lemma events_bounded_by_length_witness :
  exists cal,
    build_calendar ascii_only 4300 two_days (Some new_year_2024)
                   sample_clock 0 = Ok (cal, 2) /\
    sample_to_ical two_days_calendar = sample_to_ical cal /\
    6 * length (subcomponents cal) <= Nat.max 6 (length two_days).
Proof.
  apply (@events_bounded_by_length ascii_only 4300 sample_to_ical
           two_days (Some new_year_2024) sample_clock 0).
  - valid_date.
  - vm_compute; reflexivity.
Defined.


